(** * SimpleMicroservices: the pydantic schema layer of [models/item.py] and
      [models/mcdonalds.py]

    The two source files declare pydantic (v2) models: classes whose bodies
    are field declarations [name: annotation = Field(default, ...)].  The
    declarations are embedded as Rocq data (one [Field] per source field, in
    source order), and [BaseModel.model_validate] is embedded as the function
    [validate], which interprets an annotation on an untyped input.

    What validation reads from its surroundings is made explicit: [uuid4] and
    [datetime.utcnow], the two default factories with an effect, draw from a
    [World] that is threaded through validation. *)

From Stdlib Require Import List String Ascii ZArith NArith Bool Lia.
Import ListNotations.
Local Open Scope string_scope.
Local Open Scope list_scope.
#[local] Set Warnings "-register-all".

(** ** Values *)

(** A [uuid.UUID], by its 128-bit integer ([UUID.int]). *)
Definition UUID := N.

(** A [datetime.datetime], by its instant in microseconds since the epoch.
    Whether the object carries a [tzinfo] is not part of the model; the only
    timestamps compared below are readings of the clock with one another. *)
Definition datetime := Z.

(** Untyped input handed to a validator: a decoded request body, or the
    keyword arguments of a constructor call.  [RUuid] and [RDatetime] are the
    Python objects a caller (or [model_dump]) may pass in place of text.
    The inputs covered are the ones the fields of these models are made of:
    null, text, identifiers, timestamps, lists and dictionaries; numbers and
    booleans are not among them. *)
Inductive raw : Type :=
| RNone
| RStr (s : string)
| RUuid (u : UUID)
| RDatetime (t : datetime)
| RList (xs : list raw)
| RDict (kvs : list (string * raw)).

(** What a field of a model instance can hold.  Python does not tie the value
    of an attribute to its annotation, so an instance is a class name with its
    attributes in field order. *)
Inductive value : Type :=
| VNone
| VStr (s : string)
| VUuid (u : UUID)
| VDatetime (t : datetime)
| VList (xs : list value)
| VModel (cls : string) (attrs : list (string * value)).

(** Dictionary and attribute lookup by key. *)
Fixpoint lookup {A : Type} (k : string) (kvs : list (string * A)) : option A :=
  match kvs with
  | [] => None
  | (k', v) :: rest => if String.eqb k k' then Some v else lookup k rest
  end.

Definition getattr (v : value) (k : string) : option value :=
  match v with
  | VModel _ attrs => lookup k attrs
  | _ => None
  end.

(** The names of the attributes an instance carries, in field order. *)
Definition attribute_names (v : value) : list string :=
  match v with
  | VModel _ attrs => map fst attrs
  | _ => []
  end.

(** ** The world read by default factories *)

(** [rng] is the sequence of identifiers [uuid4] will return and [clock] the
    sequence of readings [datetime.utcnow] will return; [drawn] and [reads]
    count the calls made so far.  Nothing is assumed about either sequence. *)
Record World : Type := mkWorld {
  rng : nat -> UUID;
  drawn : nat;
  clock : nat -> datetime;
  reads : nat
}.

Definition uuid4 (w : World) : UUID * World :=
  (rng w (drawn w), mkWorld (rng w) (S (drawn w)) (clock w) (reads w)).

Definition utcnow (w : World) : datetime * World :=
  (clock w (reads w), mkWorld (rng w) (drawn w) (clock w) (S (reads w))).

(** ** Field declarations *)

(** The callables the source passes as [default_factory]. *)
Inductive factory : Type :=
| F_list      (* default_factory=list *)
| F_uuid4     (* default_factory=uuid4 *)
| F_utcnow.   (* default_factory=datetime.utcnow *)

(** The first argument of [Field]: [...] (required), a value, or a factory. *)
Inductive default : Type :=
| Required
| Default (v : value)
| DefaultFactory (f : factory).

(** Annotations used by the two source files.  A model annotation carries the
    class name and its fields, so that nested models need no class table. *)
Inductive annotation : Type :=
| TStr                                   (* str *)
| TUUID                                  (* UUID *)
| TDatetime                              (* datetime *)
| TList (item : annotation)              (* List[item] *)
| TOptional (inner : annotation)         (* Optional[inner] *)
| TModel (cls : string) (fields : list field)
with field : Type :=
| Field (name : string) (ann : annotation) (dflt : default).

Definition field_name (f : field) : string :=
  match f with Field n _ _ => n end.

Definition field_default (f : field) : default :=
  match f with Field _ _ d => d end.

Definition field_annotation (f : field) : annotation :=
  match f with Field _ a _ => a end.

Definition model_fields (m : annotation) : list field :=
  match m with TModel _ fs => fs | _ => [] end.

(** [class cls(base): own]: the fields of the base class in their order,
    then the fields the subclass declares.  A field the subclass declares
    again replaces the inherited one in place. *)
Fixpoint declare (fs : list field) (f : field) : list field :=
  match fs with
  | [] => [f]
  | g :: rest =>
      if String.eqb (field_name g) (field_name f) then f :: rest
      else g :: declare rest f
  end.

Definition subclass (cls : string) (base : annotation) (own : list field)
  : annotation :=
  TModel cls (fold_left declare own (model_fields base)).

(** ** Validation errors *)

Inductive loc_item : Type :=
| LKey (k : string)
| LIdx (i : nat).

(** One entry of [ValidationError.errors()]. *)
Record ErrorDetails : Type := mkError {
  err_type : string;
  err_loc : list loc_item;
  err_input : raw
}.

(** Either the validated result or every error found: pydantic does not stop
    at the first failing field. *)
Inductive result (A : Type) : Type :=
| Ok (a : A)
| Err (errs : list ErrorDetails).
Arguments Ok {A} a.
Arguments Err {A} errs.

Definition is_ok {A : Type} (r : result A) : bool :=
  match r with Ok _ => true | Err _ => false end.

Definition errors_of {A : Type} (r : result A) : list ErrorDetails :=
  match r with Ok _ => [] | Err es => es end.

(** Combine two results, keeping the errors of both sides in order. *)
Definition both {A B C : Type} (f : A -> B -> C) (ra : result A)
  (rb : result B) : result C :=
  match ra, rb with
  | Ok a, Ok b => Ok (f a b)
  | Ok _, Err eb => Err eb
  | Err ea, Ok _ => Err ea
  | Err ea, Err eb => Err (ea ++ eb)
  end.

Definition map_result {A B : Type} (f : A -> B) (r : result A) : result B :=
  match r with Ok a => Ok (f a) | Err es => Err es end.

(** A validator runs at a location, on an input, in a world. *)
Definition validator : Type :=
  list loc_item -> raw -> World -> result value * World.

(** Items of a list are validated in order, each at its index. *)
Fixpoint validate_items (v : validator) (loc : list loc_item) (i : nat)
  (xs : list raw) (w : World) : result (list value) * World :=
  match xs with
  | [] => (Ok [], w)
  | x :: rest =>
      let '(r, w1) := v (loc ++ [LIdx i]) x w in
      let '(rs, w2) := validate_items v loc (S i) rest w1 in
      (both cons r rs, w2)
  end.

(** Calling a default factory. *)
Definition call_factory (f : factory) (w : World) : value * World :=
  match f with
  | F_list => (VList [], w)
  | F_uuid4 => let '(u, w') := uuid4 w in (VUuid u, w')
  | F_utcnow => let '(t, w') := utcnow w in (VDatetime t, w')
  end.

(** The value of a field whose key is absent from the input.  A default is
    used as it is: pydantic does not validate defaults ([validate_default] is
    off unless a model turns it on, and none here does). *)
Definition default_value (loc : list loc_item) (whole : raw) (d : default)
  (w : World) : result value * World :=
  match d with
  | Required => (Err [mkError "missing" loc whole], w)
  | Default v => (Ok v, w)
  | DefaultFactory f => let '(v, w') := call_factory f w in (Ok v, w')
  end.

Section Validation.

(** The text formats pydantic accepts for identifiers and timestamps belong
    to the library; validation is stated for any pair of parsers. *)
Variable uuid_of_str : string -> option UUID.
Variable datetime_of_str : string -> option datetime.

Definition validate_str (loc : list loc_item) (x : raw) : result value :=
  match x with
  | RStr s => Ok (VStr s)
  | _ => Err [mkError "string_type" loc x]
  end.

Definition validate_uuid (loc : list loc_item) (x : raw) : result value :=
  match x with
  | RUuid u => Ok (VUuid u)
  | RStr s =>
      match uuid_of_str s with
      | Some u => Ok (VUuid u)
      | None => Err [mkError "uuid_parsing" loc x]
      end
  | _ => Err [mkError "uuid_type" loc x]
  end.

Definition validate_datetime (loc : list loc_item) (x : raw)
  : result value :=
  match x with
  | RDatetime t => Ok (VDatetime t)
  | RStr s =>
      match datetime_of_str s with
      | Some t => Ok (VDatetime t)
      | None => Err [mkError "datetime_from_date_parsing" loc x]
      end
  | _ => Err [mkError "datetime_type" loc x]
  end.

(** [validate a loc x w]: validate input [x] against annotation [a].
    For a model: the input must be a dictionary; fields are taken in
    declaration order, a present key is validated against the field's
    annotation, an absent one takes the field's default; keys that name no
    field are ignored (pydantic's default [extra='ignore']). *)
Fixpoint validate (a : annotation) : validator :=
  fun loc x w =>
  match a with
  | TStr => (validate_str loc x, w)
  | TUUID => (validate_uuid loc x, w)
  | TDatetime => (validate_datetime loc x, w)
  | TOptional inner =>
      match x with
      | RNone => (Ok VNone, w)
      | _ => validate inner loc x w
      end
  | TList item =>
      match x with
      | RList xs =>
          let '(r, w') := validate_items (validate item) loc 0 xs w in
          (map_result VList r, w')
      | _ => (Err [mkError "list_type" loc x], w)
      end
  | TModel cls fields =>
      match x with
      | RDict kvs =>
          let '(r, w') :=
            (fix validate_fields (fs : list field) (w : World)
               : result (list (string * value)) * World :=
               match fs with
               | [] => (Ok [], w)
               | Field name ann dflt :: rest =>
                   let '(r1, w1) :=
                     match lookup name kvs with
                     | Some x' => validate ann (loc ++ [LKey name]) x' w
                     | None => default_value (loc ++ [LKey name]) x dflt w
                     end in
                   let '(rs, w2) := validate_fields rest w1 in
                   (both (fun v attrs => (name, v) :: attrs) r1 rs, w2)
               end) fields w in
          (map_result (VModel cls) r, w')
      | _ => (Err [mkError "model_type" loc x], w)
      end
  end.

(** [cls.model_validate(x)]. *)
Definition model_validate (cls : annotation) (x : raw) (w : World)
  : result value * World :=
  validate cls [] x w.

End Validation.

(** [instance.model_dump()]: nested instances become dictionaries; identifier
    and timestamp objects are kept as they are (Python mode). *)
Fixpoint model_dump (v : value) : raw :=
  match v with
  | VNone => RNone
  | VStr s => RStr s
  | VUuid u => RUuid u
  | VDatetime t => RDatetime t
  | VList xs => RList (map model_dump xs)
  | VModel _ attrs =>
      RDict ((fix dump_attrs (kvs : list (string * value)) :=
                match kvs with
                | [] => []
                | (k, v') :: rest => (k, model_dump v') :: dump_attrs rest
                end) attrs)
  end.

(** ** models/item.py *)

Module Item.

(** [class ItemBase(BaseModel)] *)
Definition ItemBase : annotation :=
  TModel "ItemBase"
    [ Field "id" TUUID (DefaultFactory F_uuid4);
      Field "name" TStr Required;
      Field "ingredients" (TList TStr) (DefaultFactory F_list) ].

(** [class ItemCreate(ItemBase)]: no field of its own. *)
Definition ItemCreate : annotation :=
  subclass "ItemCreate" ItemBase [].

(** [class ItemUpdate(BaseModel)] *)
Definition ItemUpdate : annotation :=
  TModel "ItemUpdate"
    [ Field "name" (TOptional TStr) Required;
      Field "ingredients" (TOptional (TList TStr)) (DefaultFactory F_list) ].

(** [class ItemRead(ItemBase)] *)
Definition ItemRead : annotation :=
  subclass "ItemRead" ItemBase
    [ Field "created_at" TDatetime (DefaultFactory F_utcnow);
      Field "updated_at" TDatetime (DefaultFactory F_utcnow) ].

End Item.

(** ** models/address.py *)

Module Address.

(** Modelled from the spec: [models/address.py], which [mcdonalds.py]
    imports [AddressBase] from, is not among the sources.  The spec gives
    the entity as "an id plus descriptive fields (street, city, state,
    postal code, country), all required text", in the pattern of Item; the
    keys are those of the address examples in [mcdonalds.py]. *)
Definition AddressBase : annotation :=
  TModel "AddressBase"
    [ Field "id" TUUID (DefaultFactory F_uuid4);
      Field "street" TStr Required;
      Field "city" TStr Required;
      Field "state" TStr Required;
      Field "postal_code" TStr Required;
      Field "country" TStr Required ].

End Address.

(** ** models/mcdonalds.py *)

Module McDonalds.

Import Item Address.

(** [class McDonaldsBase(BaseModel)] *)
Definition McDonaldsBase : annotation :=
  TModel "McDonaldsBase"
    [ Field "address" AddressBase (DefaultFactory F_list);
      Field "menu" (TList ItemBase) (DefaultFactory F_list) ].

(** [class McDonaldsCreate(McDonaldsBase)]: no field of its own. *)
Definition McDonaldsCreate : annotation :=
  subclass "McDonaldsCreate" McDonaldsBase [].

(** [class McDonaldsUpdate(BaseModel)] *)
Definition McDonaldsUpdate : annotation :=
  TModel "McDonaldsUpdate"
    [ Field "address" (TOptional AddressBase) (Default VNone);
      Field "menu" (TOptional (TList ItemBase)) (DefaultFactory F_list) ].

(** [class McDonaldsRead(McDonaldsBase)] *)
Definition McDonaldsRead : annotation :=
  subclass "McDonaldsRead" McDonaldsBase
    [ Field "id" TUUID (DefaultFactory F_uuid4);
      Field "created_at" TDatetime (DefaultFactory F_utcnow);
      Field "updated_at" TDatetime (DefaultFactory F_utcnow) ].

End McDonalds.

(** ** Canonical text forms, for running the source's examples

    Concrete readers for the text forms of the source's examples.  The
    library reads further forms of a timestamp (other separators, fractions
    of a second, offsets), which these readers leave unread.  The facts
    below hold for any pair of readers; these two serve to evaluate the
    validators on the example payloads. *)

Module Lexical.

Local Open Scope N_scope.

Definition hex_digit (c : ascii) : option N :=
  let n := N_of_ascii c in
  if (48 <=? n) && (n <=? 57) then Some (n - 48)
  else if (97 <=? n) && (n <=? 102) then Some (n - 87)
  else if (65 <=? n) && (n <=? 70) then Some (n - 55)
  else None.

Definition dec_digit (c : ascii) : option N :=
  let n := N_of_ascii c in
  if (48 <=? n) && (n <=? 57) then Some (n - 48) else None.

(** Read every character of [s] as a digit in base [base]. *)
Fixpoint digits (digit : ascii -> option N) (base acc : N) (s : string)
  : option N :=
  match s with
  | EmptyString => Some acc
  | String c rest =>
      match digit c with
      | Some d => digits digit base (base * acc + d) rest
      | None => None
      end
  end.

Definition sub (i n : nat) (s : string) : string := String.substring i n s.

(** The hyphenated form [xxxxxxxx-xxxx-xxxx-xxxx-xxxxxxxxxxxx]. *)
Definition hyphenated (s : string) : option UUID :=
  if Nat.eqb (String.length s) 36
     && String.eqb (sub 8 1 s) "-" && String.eqb (sub 13 1 s) "-"
     && String.eqb (sub 18 1 s) "-" && String.eqb (sub 23 1 s) "-"
  then digits hex_digit 16 0
         (sub 0 8 s ++ sub 9 4 s ++ sub 14 4 s ++ sub 19 4 s ++ sub 24 12 s)
  else None.

(** An identifier as 32 hexadecimal digits, in the hyphenated form, or in
    the hyphenated form within braces or after [urn:uuid:]. *)
Definition uuid_of_string (s : string) : option UUID :=
  let n := String.length s in
  if Nat.eqb n 32 then digits hex_digit 16 0 s
  else if Nat.eqb n 36 then hyphenated s
  else if Nat.eqb n 38 && String.eqb (sub 0 1 s) "{"
          && String.eqb (sub 37 1 s) "}"
       then hyphenated (sub 1 36 s)
  else if Nat.eqb n 45 && String.eqb (sub 0 9 s) "urn:uuid:"
       then hyphenated (sub 9 36 s)
  else None.

Definition is_leap (y : N) : bool :=
  ((y mod 4 =? 0) && negb (y mod 100 =? 0)) || (y mod 400 =? 0).

Definition days_in_month (y m : N) : N :=
  if m =? 2 then (if is_leap y then 29 else 28)
  else if (m =? 4) || (m =? 6) || (m =? 9) || (m =? 11) then 30
  else 31.

(** Days from 1970-01-01 to the given date of the Gregorian calendar. *)
Definition days_from_civil (y m d : N) : Z :=
  let y' := (if (m <=? 2)%N then Z.of_N y - 1 else Z.of_N y)%Z in
  let era := (y' / 400)%Z in
  let yoe := (y' - era * 400)%Z in
  let mp := ((Z.of_N m + 9) mod 12)%Z in
  let doy := ((153 * mp + 2) / 5 + Z.of_N d - 1)%Z in
  let doe := (yoe * 365 + yoe / 4 - yoe / 100 + doy)%Z in
  (era * 146097 + doe - 719468)%Z.

(** The form [YYYY-MM-DDTHH:MM:SS] and the form [YYYY-MM-DDTHH:MM:SSZ] of
    the source's examples, from year 1 on. *)
Definition datetime_of_string (s : string) : option datetime :=
  if (Nat.eqb (String.length s) 19
      || Nat.eqb (String.length s) 20 && String.eqb (sub 19 1 s) "Z")
     && String.eqb (sub 4 1 s) "-" && String.eqb (sub 7 1 s) "-"
     && String.eqb (sub 10 1 s) "T" && String.eqb (sub 13 1 s) ":"
     && String.eqb (sub 16 1 s) ":"
  then
    match digits dec_digit 10 0 (sub 0 4 s),
          digits dec_digit 10 0 (sub 5 2 s),
          digits dec_digit 10 0 (sub 8 2 s),
          digits dec_digit 10 0 (sub 11 2 s),
          digits dec_digit 10 0 (sub 14 2 s),
          digits dec_digit 10 0 (sub 17 2 s) with
    | Some y, Some m, Some d, Some hh, Some mm, Some ss =>
        if (1 <=? y) && (1 <=? m) && (m <=? 12) && (1 <=? d)
           && (d <=? days_in_month y m)
           && (hh <? 24) && (mm <? 60) && (ss <? 60)
        then Some ((days_from_civil y m d * 86400
                    + Z.of_N (hh * 3600 + mm * 60 + ss)) * 1000000)%Z
        else None
    | _, _, _, _, _, _ => None
    end
  else None.

End Lexical.

(** ** A concrete world and the source's example payloads *)

Module Examples.

(** A world whose generator counts up from 1 and whose clock starts at
    2025-01-15T10:20:30Z and advances one microsecond per reading. *)
Definition w0 : World :=
  mkWorld (fun n => N.of_nat (S n)) 0
          (fun n => (1736936430000000 + Z.of_nat n)%Z) 0.

Definition run (cls : annotation) (x : raw) (w : World)
  : result value * World :=
  model_validate Lexical.uuid_of_string Lexical.datetime_of_string cls x w.

Definition big_mac_ingredients : list string :=
  [ "Mac Sauce"; "Diced Onions"; "Shredded Lettuce"; "Pickle";
    "American Cheese"; "1/10 Lb Beef"; "Salt"; "Big Mac Bun" ].

(** The example of [ItemBase.model_config]. *)
Definition big_mac : raw :=
  RDict [ ("id", RStr "550e8400-e29b-41d4-a716-446655440000");
          ("name", RStr "Big Mac");
          ("ingredients", RList (map RStr big_mac_ingredients)) ].

(** The address of the examples in [mcdonalds.py]. *)
Definition broadway : raw :=
  RDict [ ("id", RStr "550e8400-e29b-41d4-a716-446655440000");
          ("street", RStr "600 W 125th St");
          ("city", RStr "New York");
          ("state", RStr "NY");
          ("postal_code", RStr "10027");
          ("country", RStr "US") ].

(** The example of [McDonaldsBase.model_config]: the menu item has no id. *)
Definition store_items : list (string * raw) :=
  [ ("address", broadway);
    ("menu", RList [ RDict [ ("name", RStr "Big Mac");
                             ("ingredients",
                              RList (map RStr big_mac_ingredients)) ] ]) ].

Definition store : raw := RDict store_items.

(** The Create payload of the spec's scenario, without its ingredients. *)
Definition name_only : raw := RDict [ ("name", RStr "Big Mac") ].

(** A Read payload whose timestamps are the source's two example
    timestamps, exchanged. *)
Definition backwards : raw :=
  RDict [ ("name", RStr "Big Mac");
          ("created_at", RStr "2025-01-16T12:00:00Z");
          ("updated_at", RStr "2025-01-15T10:20:30Z") ].

(** The attribute [k] of the instance a validation produced, if any. *)
Definition attr (r : result value * World) (k : string) : option value :=
  match fst r with
  | Ok inst => getattr inst k
  | Err _ => None
  end.

End Examples.

(** ** Reasoning principles *)

(** Induction over annotations that reaches the annotations of the fields of
    a nested model. *)
Section AnnotationInduction.

Variable P : annotation -> Prop.
Hypothesis HStr : P TStr.
Hypothesis HUUID : P TUUID.
Hypothesis HDatetime : P TDatetime.
Hypothesis HList : forall item, P item -> P (TList item).
Hypothesis HOptional : forall inner, P inner -> P (TOptional inner).
Hypothesis HModel : forall cls fs,
    Forall (fun f => P (field_annotation f)) fs -> P (TModel cls fs).

Fixpoint annotation_nested_ind (a : annotation) : P a :=
  match a with
  | TStr => HStr
  | TUUID => HUUID
  | TDatetime => HDatetime
  | TList item => HList item (annotation_nested_ind item)
  | TOptional inner => HOptional inner (annotation_nested_ind inner)
  | TModel cls fs =>
      HModel cls fs
        ((fix all_fields (fs : list field)
            : Forall (fun f => P (field_annotation f)) fs :=
            match fs with
            | [] => Forall_nil _
            | f :: rest =>
                Forall_cons f
                  (match f return P (field_annotation f) with
                   | Field _ ann _ => annotation_nested_ind ann
                   end)
                  (all_fields rest)
            end) fs)
  end.

End AnnotationInduction.

(** Whether validating against [a] can call [datetime.utcnow]. *)
Fixpoint reads_clock (a : annotation) : bool :=
  match a with
  | TStr | TUUID | TDatetime => false
  | TList item => reads_clock item
  | TOptional inner => reads_clock inner
  | TModel _ fs =>
      (fix any_field (fs : list field) : bool :=
         match fs with
         | [] => false
         | Field _ ann dflt :: rest =>
             match dflt with DefaultFactory F_utcnow => true | _ => false end
             || reads_clock ann || any_field rest
         end) fs
  end.

(** [w'] is [w] after some calls to [uuid4] and [utcnow]. *)
Definition advances (w w' : World) : Prop :=
  rng w' = rng w /\ clock w' = clock w /\
  drawn w <= drawn w' /\ reads w <= reads w'.

(** The head of an error location is the field the error is about. *)
Definition about (k : string) (e : ErrorDetails) : Prop :=
  exists rest, err_loc e = LKey k :: rest.

(** What a validator may do to the world: only advance it, and leave the
    clock alone when [quiet]. *)
Definition frames (quiet : bool) (v : validator) : Prop :=
  forall loc x w,
    advances w (snd (v loc x w)) /\
    (quiet = true -> reads (snd (v loc x w)) = reads w).

(** A validator reports its errors at or below the location it runs at. *)
Definition reports_below (v : validator) : Prop :=
  forall loc x w e,
    In e (errors_of (fst (v loc x w))) ->
    exists rest, err_loc e = loc ++ rest.

(** The instance a validation produced, when it produced one. *)
Definition instance_of {A : Type} (r : result A) : option A :=
  match r with
  | Ok inst => Some inst
  | Err _ => None
  end.

(** The classes of the two files. *)
Definition item_classes : list annotation :=
  [ Item.ItemBase; Item.ItemCreate; Item.ItemUpdate; Item.ItemRead ].

Definition location_classes : list annotation :=
  [ McDonalds.McDonaldsBase; McDonalds.McDonaldsCreate;
    McDonalds.McDonaldsUpdate; McDonalds.McDonaldsRead ].

(** The field names a class declares or inherits. *)
Definition field_names (cls : annotation) : list string :=
  map field_name (model_fields cls).

(** An annotation with no model inside it: validating against it cannot
    call a factory. *)
Fixpoint plain (a : annotation) : bool :=
  match a with
  | TStr | TUUID | TDatetime => true
  | TList item => plain item
  | TOptional inner => plain inner
  | TModel _ _ => false
  end.

(** The world after the field loop of a model whose fields are all plain:
    each absent key has had its default taken, in field order. *)
Definition after_defaults (kvs : list (string * raw)) (fs : list field)
  (w : World) : World :=
  fold_left
    (fun w f =>
       match lookup (field_name f) kvs with
       | Some _ => w
       | None => snd (default_value [] RNone (field_default f) w)
       end) fs w.

(** Whether the default of a field is a value its annotation accepts. *)
Definition default_fits (a : annotation) (d : default) : bool :=
  match d, a with
  | Required, _ => true
  | Default VNone, TOptional _ => true
  | DefaultFactory F_list, TList _ => true
  | DefaultFactory F_list, TOptional (TList _) => true
  | DefaultFactory F_uuid4, TUUID => true
  | DefaultFactory F_utcnow, TDatetime => true
  | _, _ => false
  end.

(** A class is coherent when the default of every field, here and in the
    models nested in it, fits the field's annotation, and no model declares
    a name twice. *)
Fixpoint coherent (a : annotation) : bool :=
  match a with
  | TStr | TUUID | TDatetime => true
  | TList item => coherent item
  | TOptional inner => coherent inner
  | TModel _ fs =>
      (fix all_fields (fs : list field) : bool :=
         match fs with
         | [] => true
         | Field name ann dflt :: rest =>
             default_fits ann dflt && coherent ann
             && negb (existsb (String.eqb name) (map field_name rest))
             && all_fields rest
         end) fs
  end.

(** An input to which the library can give an identifier: an identifier
    object, or text that reads as one. *)
Definition reads_as_uuid (uuid_of_str : string -> option UUID) (x : raw)
  : Prop :=
  (exists u, x = RUuid u) \/ (exists s u, x = RStr s /\ uuid_of_str s = Some u).

(** The timestamp [t] as the input [x] gives it: as the object itself, or as
    text that the library reads as [t]. *)
Definition given_as (datetime_of_str : string -> option datetime) (x : raw)
  (t : datetime) : Prop :=
  x = RDatetime t \/ exists s, x = RStr s /\ datetime_of_str s = Some t.

(** A list whose items are all text. *)
Definition list_of_text (x : raw) : Prop :=
  exists ss, x = RList (map RStr ss).

Section Stability.

Variable uuid_of_str : string -> option UUID.
Variable datetime_of_str : string -> option datetime.

(** [v] is stable under [a]: its dump validates against [a] to [v] itself,
    anywhere and in any world, which is left untouched. *)
Definition stable (a : annotation) (v : value) : Prop :=
  forall loc u,
    validate uuid_of_str datetime_of_str a loc (model_dump v) u = (Ok v, u).

End Stability.

(** A menu of two items, the second without a name. *)
Definition two_items : list raw :=
  [ RDict [("name", RStr "Big Mac")]; RDict [] ].

(** An error made at the location the validator runs at, or none at all. *)
Ltac reported_here :=
  cbn;
  first [ tauto
        | intros [<-|[]]; exists []; cbn; now rewrite app_nil_r ].

Section ValidationFacts.

Variable uuid_of_str : string -> option UUID.
Variable datetime_of_str : string -> option datetime.

Local Abbreviation validation := (validate uuid_of_str datetime_of_str).

(** The step of the field loop of [validation], by name. *)
Definition validate_field (kvs : list (string * raw)) (loc : list loc_item)
  (f : field) (w : World) : result value * World :=
  match f with
  | Field name ann dflt =>
      match lookup name kvs with
      | Some x' => validation ann (loc ++ [LKey name]) x' w
      | None => default_value (loc ++ [LKey name]) (RDict kvs) dflt w
      end
  end.

(** The field loop of [validation], by name. *)
Fixpoint validate_fields (kvs : list (string * raw)) (loc : list loc_item)
  (fs : list field) (w : World) : result (list (string * value)) * World :=
  match fs with
  | [] => (Ok [], w)
  | f :: rest =>
      let '(r1, w1) := validate_field kvs loc f w in
      let '(rs, w2) := validate_fields kvs loc rest w1 in
      (both (fun v attrs => (field_name f, v) :: attrs) r1 rs, w2)
  end.

(** Validating a dictionary against a model is the field loop. *)
Lemma validate_TModel cls fs loc kvs w :
  validation (TModel cls fs) loc (RDict kvs) w =
  let '(r, w') := validate_fields kvs loc fs w in
  (map_result (VModel cls) r, w').
Proof.
  cbn [validate].
  match goal with
  | |- (let '(_, _) := ?loop fs w in _) = _ =>
      assert (E : forall gs u, loop gs u = validate_fields kvs loc gs u)
  end.
  { induction gs as [|[name ann dflt] rest IH]; intros u; [reflexivity|].
    cbn [validate_fields validate_field field_name].
    destruct (lookup name kvs);
      match goal with
      | |- (let '(_, _) := ?step in _) = _ =>
          destruct step as [r1 w1]; rewrite IH; reflexivity
      end. }
  rewrite E. reflexivity.
Qed.

Lemma validate_TStr loc x w :
  validation TStr loc x w = (validate_str loc x, w).
Proof. reflexivity. Qed.

Lemma validate_TUUID loc x w :
  validation TUUID loc x w = (validate_uuid uuid_of_str loc x, w).
Proof. reflexivity. Qed.

Lemma validate_TDatetime loc x w :
  validation TDatetime loc x w = (validate_datetime datetime_of_str loc x, w).
Proof. reflexivity. Qed.

Lemma validate_TList item loc xs w :
  validation (TList item) loc (RList xs) w =
  let '(r, w') := validate_items (validation item) loc 0 xs w in
  (map_result VList r, w').
Proof. reflexivity. Qed.

Lemma advances_refl w : advances w w.
Proof. unfold advances; auto. Qed.

Lemma advances_trans w1 w2 w3 :
  advances w1 w2 -> advances w2 w3 -> advances w1 w3.
Proof.
  unfold advances. intros (Hr & Hc & Hd & Ht) (Hr' & Hc' & Hd' & Ht').
  repeat split; try congruence; lia.
Qed.

Lemma default_value_advances loc whole d w :
  advances w (snd (default_value loc whole d w)).
Proof.
  destruct d as [|v|[| |]]; cbn; unfold advances; cbn; auto.
Qed.

Lemma default_value_reads loc whole d w :
  match d with DefaultFactory F_utcnow => true | _ => false end = false ->
  reads (snd (default_value loc whole d w)) = reads w.
Proof.
  destruct d as [|v|[| |]]; cbn; intros H; auto; discriminate.
Qed.

Lemma validate_items_frames quiet v :
  frames quiet v ->
  forall xs loc i w,
    advances w (snd (validate_items v loc i xs w)) /\
    (quiet = true -> reads (snd (validate_items v loc i xs w)) = reads w).
Proof.
  intros Hv. induction xs as [|x rest IH]; intros loc i w.
  - cbn. split; [apply advances_refl | reflexivity].
  - cbn [validate_items].
    destruct (Hv (loc ++ [LIdx i]) x w) as [Ha Hq].
    destruct (v (loc ++ [LIdx i]) x w) as [r w1]. cbn [snd] in Ha, Hq.
    destruct (IH loc (S i) w1) as [Ha' Hq'].
    destruct (validate_items v loc (S i) rest w1) as [rs w2].
    cbn [snd] in *. split.
    + eapply advances_trans; eassumption.
    + intros Q. rewrite Hq', Hq; auto.
Qed.

(** Validation only advances the world, and a model with no timestamp
    default anywhere inside it does not read the clock. *)
Lemma validate_frames a : frames (negb (reads_clock a)) (validation a).
Proof.
  induction a as [| | |item IH|inner IH|cls fs IH]
    using annotation_nested_ind; intros loc x w.
  - cbn. split; [apply advances_refl | reflexivity].
  - cbn. split; [apply advances_refl | reflexivity].
  - cbn. split; [apply advances_refl | reflexivity].
  - destruct x; cbn [validate snd];
      try (split; [apply advances_refl | reflexivity]).
    cbn [reads_clock].
    pose proof (validate_items_frames _ _ IH xs loc 0 w) as H.
    destruct (validate_items (validation item) loc 0 xs w) as [r w'].
    exact H.
  - destruct x; cbn [validate snd reads_clock];
      try apply IH; split; first [apply advances_refl | reflexivity].
  - destruct x; try (cbn; split; [apply advances_refl | reflexivity]).
    rewrite validate_TModel.
    assert (H : advances w (snd (validate_fields kvs loc fs w)) /\
                (negb (reads_clock (TModel cls fs)) = true ->
                 reads (snd (validate_fields kvs loc fs w)) = reads w)).
    { revert w.
      induction IH as [|[name ann dflt] rest Hf _ IHrest]; intros w.
      - cbn. split; [apply advances_refl | reflexivity].
      - cbn [validate_fields validate_field field_name].
        cbn [field_annotation] in Hf.
        assert (H1 : advances w (snd (validate_field kvs loc
                                        (Field name ann dflt) w)) /\
                     (negb (reads_clock (TModel cls (Field name ann dflt
                                                       :: rest))) = true ->
                      reads (snd (validate_field kvs loc
                                    (Field name ann dflt) w)) = reads w)).
        { cbn [validate_field]. destruct (lookup name kvs) as [x'|].
          - destruct (Hf (loc ++ [LKey name]) x' w) as [Ha Hq].
            split; [exact Ha|]. intros Q. apply Hq.
            cbn [reads_clock] in Q.
            destruct (reads_clock ann); [|reflexivity].
            rewrite orb_true_r in Q. discriminate Q.
          - split; [apply default_value_advances|].
            intros Q. apply default_value_reads.
            cbn [reads_clock] in Q.
            destruct dflt as [|?|[| |]]; auto; discriminate Q. }
        cbn [validate_field] in H1.
        destruct (match lookup name kvs with
                  | Some x' => validation ann (loc ++ [LKey name]) x' w
                  | None => default_value (loc ++ [LKey name]) (RDict kvs)
                              dflt w
                  end) as [r1 w1].
        destruct (IHrest w1) as [Ha' Hq'].
        destruct (validate_fields kvs loc rest w1) as [rs w2].
        cbn [snd] in *. destruct H1 as [Ha Hq]. split.
        + eapply advances_trans; eassumption.
        + intros Q. rewrite Hq', Hq; auto.
          cbn [reads_clock] in Q |- *.
          destruct (match dflt with
                    | DefaultFactory F_utcnow => true
                    | _ => false
                    end || reads_clock ann); [discriminate Q | exact Q]. }
    destruct (validate_fields kvs loc fs w) as [r w']. exact H.
Qed.

Lemma validate_field_frames kvs loc f w :
  advances w (snd (validate_field kvs loc f w)) /\
  (match field_default f with DefaultFactory F_utcnow => true | _ => false end
   || reads_clock (field_annotation f) = false ->
   reads (snd (validate_field kvs loc f w)) = reads w).
Proof.
  destruct f as [name ann dflt]. cbn [validate_field field_default
                                        field_annotation].
  destruct (lookup name kvs) as [x'|].
  - destruct (validate_frames ann (loc ++ [LKey name]) x' w) as [Ha Hq].
    split; [exact Ha|]. intros Q. apply Hq.
    apply orb_false_elim in Q. destruct Q as [_ Q]. now rewrite Q.
  - split; [apply default_value_advances|].
    intros Q. apply default_value_reads.
    apply orb_false_elim in Q. tauto.
Qed.

(** *** Where errors are reported *)

Lemma errors_of_both {A B C} (f : A -> B -> C) ra rb :
  errors_of (both f ra rb) = errors_of ra ++ errors_of rb.
Proof.
  destruct ra, rb; cbn; auto using app_nil_r.
Qed.

Lemma errors_of_map_result {A B} (f : A -> B) r :
  errors_of (map_result f r) = errors_of r.
Proof. now destruct r. Qed.

Lemma validate_items_errors v :
  reports_below v ->
  forall xs loc i w e,
    In e (errors_of (fst (validate_items v loc i xs w))) ->
    exists j rest, i <= j /\ err_loc e = loc ++ LIdx j :: rest.
Proof.
  intros Hv. induction xs as [|x xs IH]; intros loc i w e; cbn [validate_items].
  - cbn. tauto.
  - pose proof (Hv (loc ++ [LIdx i]) x w e) as H1.
    destruct (v (loc ++ [LIdx i]) x w) as [r w1].
    pose proof (IH loc (S i) w1 e) as H2.
    destruct (validate_items v loc (S i) xs w1) as [rs w2].
    cbn [fst] in *. rewrite errors_of_both, in_app_iff. intros [H|H].
    + destruct (H1 H) as [rest E]. exists i, rest. split; [lia|].
      now rewrite E, <- app_assoc.
    + destruct (H2 H) as (j & rest & Hj & E). exists j, rest.
      split; [lia | exact E].
Qed.

Lemma default_value_errors loc whole d w e :
  In e (errors_of (fst (default_value loc whole d w))) ->
  d = Required /\ e = mkError "missing" loc whole.
Proof.
  destruct d as [|v|f]; cbn.
  - intros [H|[]]. now split.
  - tauto.
  - destruct (call_factory f w). cbn. tauto.
Qed.

Lemma validate_fields_errors kvs loc fs w e :
  In e (errors_of (fst (validate_fields kvs loc fs w))) ->
  exists f w1, In f fs /\
               In e (errors_of (fst (validate_field kvs loc f w1))).
Proof.
  revert w. induction fs as [|f rest IH]; intros w; cbn [validate_fields].
  - cbn. tauto.
  - destruct (validate_field kvs loc f w) as [r1 w1] eqn:E1.
    pose proof (IH w1) as H2.
    destruct (validate_fields kvs loc rest w1) as [rs w2].
    cbn [fst] in *. rewrite errors_of_both, in_app_iff. intros [H|H].
    + exists f, w. rewrite E1. split; [now left | exact H].
    + destruct (H2 H) as (g & u & Hg & He). exists g, u.
      split; [now right | exact He].
Qed.

Lemma validate_reports_below a : reports_below (validation a).
Proof.
  induction a as [| | |item IH|inner IH|cls fs IH]
    using annotation_nested_ind; intros loc x w e.
  - destruct x; reported_here.
  - destruct x; try reported_here. cbn.
    destruct (uuid_of_str s); reported_here.
  - destruct x; try reported_here. cbn.
    destruct (datetime_of_str s); reported_here.
  - destruct x; try reported_here. cbn [validate].
    pose proof (validate_items_errors _ IH xs loc 0 w e) as H.
    destruct (validate_items (validation item) loc 0 xs w) as [r w'].
    cbn [fst] in *. rewrite errors_of_map_result. intros He.
    destruct (H He) as (j & rest & _ & E). now exists (LIdx j :: rest).
  - destruct x; cbn [validate]; try apply IH. reported_here.
  - destruct x; try reported_here.
    rewrite validate_TModel.
    pose proof (validate_fields_errors kvs loc fs w e) as H.
    destruct (validate_fields kvs loc fs w) as [r w']. cbn [fst] in *.
    rewrite errors_of_map_result. intros He.
    destruct (H He) as ([name ann dflt] & u & Hin & Hf).
    rewrite Forall_forall in IH. specialize (IH _ Hin).
    cbn [field_annotation validate_field] in IH, Hf.
    destruct (lookup name kvs) as [x'|].
    + destruct (IH _ _ _ _ Hf) as [rest E]. exists (LKey name :: rest).
      now rewrite E, <- app_assoc.
    + apply default_value_errors in Hf. destruct Hf as [_ ->].
      now exists [LKey name].
Qed.

(** An error of a field is reported under the field's name. *)
Lemma validate_field_errors kvs loc f w e :
  In e (errors_of (fst (validate_field kvs loc f w))) ->
  exists rest, err_loc e = loc ++ LKey (field_name f) :: rest.
Proof.
  destruct f as [name ann dflt]. cbn [validate_field field_name].
  destruct (lookup name kvs) as [x'|]; intros H.
  - apply validate_reports_below in H. destruct H as [rest E].
    exists rest. now rewrite E, <- app_assoc.
  - apply default_value_errors in H. destruct H as [_ ->]. now exists [].
Qed.

(** An error of a model about a key was made by the field of that name. *)
Lemma errors_about cls fs kvs w k e :
  In e (errors_of (fst (model_validate uuid_of_str datetime_of_str
                          (TModel cls fs) (RDict kvs) w))) ->
  about k e ->
  exists f w1,
    In f fs /\ field_name f = k /\
    In e (errors_of (fst (validate_field kvs [] f w1))).
Proof.
  unfold model_validate. rewrite validate_TModel.
  pose proof (validate_fields_errors kvs [] fs w e) as H.
  destruct (validate_fields kvs [] fs w) as [r w']. cbn [fst] in *.
  rewrite errors_of_map_result. intros He [rest E].
  destruct (H He) as (f & u & Hin & Hf). exists f, u.
  pose proof (validate_field_errors _ _ _ _ _ Hf) as [rest' E'].
  cbn [app] in E'. rewrite E in E'. injection E' as Hname _.
  auto.
Qed.

(** Leaving out a key whose field has a default is never an error: no
    error of the model is about that field. *)
Lemma omitted_default_no_error cls fs kvs w k e :
  lookup k kvs = None ->
  (forall f, In f fs -> field_name f = k -> field_default f <> Required) ->
  In e (errors_of (fst (model_validate uuid_of_str datetime_of_str
                          (TModel cls fs) (RDict kvs) w))) ->
  ~ about k e.
Proof.
  intros Hk Hd He Hab.
  destruct (errors_about _ _ _ _ _ _ He Hab)
    as ([name ann dflt] & u & Hin & Hname & Hf).
  cbn [field_name] in Hname. subst name.
  specialize (Hd _ Hin eq_refl). cbn [field_default validate_field] in Hd, Hf.
  rewrite Hk in Hf. apply default_value_errors in Hf. tauto.
Qed.

(** *** What a successful validation went through *)

Lemma both_ok {A B C} (f : A -> B -> C) ra rb c :
  both f ra rb = Ok c -> exists a b, ra = Ok a /\ rb = Ok b /\ c = f a b.
Proof.
  destruct ra, rb; cbn; intros H; inversion H; eauto.
Qed.

Lemma validate_fields_cons_ok kvs loc f rest w attrs w' :
  validate_fields kvs loc (f :: rest) w = (Ok attrs, w') ->
  exists v w1 attrs',
    validate_field kvs loc f w = (Ok v, w1) /\
    validate_fields kvs loc rest w1 = (Ok attrs', w') /\
    attrs = (field_name f, v) :: attrs'.
Proof.
  cbn [validate_fields].
  destruct (validate_field kvs loc f w) as [r1 w1].
  destruct (validate_fields kvs loc rest w1) as [rs w2] eqn:E.
  intros H. injection H as H ->.
  apply both_ok in H. destruct H as (v & attrs' & -> & -> & ->).
  now exists v, w1, attrs'.
Qed.

Lemma validate_fields_nil_ok kvs loc w attrs w' :
  validate_fields kvs loc [] w = (Ok attrs, w') -> attrs = [] /\ w' = w.
Proof. cbn. intros H. now inversion H. Qed.

Lemma validate_TModel_ok cls fs loc x w inst w' :
  validation (TModel cls fs) loc x w = (Ok inst, w') ->
  exists kvs attrs,
    x = RDict kvs /\ inst = VModel cls attrs /\
    validate_fields kvs loc fs w = (Ok attrs, w').
Proof.
  destruct x; try (cbn; discriminate).
  rewrite validate_TModel.
  destruct (validate_fields kvs loc fs w) as [[attrs|errs] w1] eqn:E; cbn;
    intros H; inversion H; subst.
  now exists kvs, attrs.
Qed.

Lemma validate_TModel_dict_ok cls fs loc kvs w inst w' :
  validation (TModel cls fs) loc (RDict kvs) w = (Ok inst, w') ->
  exists attrs,
    inst = VModel cls attrs /\
    validate_fields kvs loc fs w = (Ok attrs, w').
Proof.
  intros H. apply validate_TModel_ok in H.
  destruct H as (kvs' & attrs & E & -> & H). injection E as <-.
  now exists attrs.
Qed.

(** A list of texts validates to the same texts. *)
Lemma validate_items_str loc i xs w vs w' :
  validate_items (validation TStr) loc i xs w = (Ok vs, w') ->
  w' = w /\ map model_dump vs = xs.
Proof.
  revert i vs. induction xs as [|x xs IH]; intros i vs; cbn [validate_items].
  - intros H. now inversion H.
  - destruct (validation TStr (loc ++ [LIdx i]) x w) as [r w1] eqn:Ex.
    cbn in Ex. injection Ex as Hr <-.
    destruct (validate_items (validation TStr) loc (S i) xs w) as [rs w2] eqn:E.
    intros H. injection H as H <-. apply both_ok in H.
    destruct H as (v & vs' & -> & -> & ->).
    destruct (IH _ _ E) as [-> Hvs].
    destruct x; try discriminate Hr. cbn in Hr. injection Hr as <-.
    cbn. now rewrite Hvs.
Qed.

Lemma validate_str_ok loc x v :
  validate_str loc x = Ok v -> exists s, x = RStr s /\ v = VStr s.
Proof. destruct x; cbn; intros H; inversion H; eauto. Qed.

Lemma validate_uuid_ok loc x v :
  validate_uuid uuid_of_str loc x = Ok v ->
  exists u, v = VUuid u /\
            (x = RUuid u \/ exists s, x = RStr s /\ uuid_of_str s = Some u).
Proof.
  destruct x; cbn; try discriminate.
  - destruct (uuid_of_str s) as [u|] eqn:E; intros H; inversion H; eauto 6.
  - intros H; inversion H; eauto.
Qed.

Lemma validate_datetime_ok loc x v :
  validate_datetime datetime_of_str loc x = Ok v ->
  exists t, v = VDatetime t /\
            (x = RDatetime t \/
             exists s, x = RStr s /\ datetime_of_str s = Some t).
Proof.
  destruct x; cbn; try discriminate.
  - destruct (datetime_of_str s) as [t|] eqn:E; intros H; inversion H;
      eauto 6.
  - intros H; inversion H; eauto.
Qed.

(** Validated texts, dumped, validation to themselves again. *)
Lemma validate_items_str_again loc i xs w vs w' :
  validate_items (validation TStr) loc i xs w = (Ok vs, w') ->
  forall loc' i' u,
    validate_items (validation TStr) loc' i' (map model_dump vs) u
    = (Ok vs, u).
Proof.
  revert i vs. induction xs as [|x xs IH]; intros i vs; cbn [validate_items].
  - intros H. inversion H. reflexivity.
  - destruct (validation TStr (loc ++ [LIdx i]) x w) as [r w1] eqn:Ex.
    cbn in Ex. injection Ex as Hr <-.
    destruct (validate_items (validation TStr) loc (S i) xs w) as [rs w2] eqn:E.
    intros H. injection H as H <-. apply both_ok in H.
    destruct H as (v & vs' & -> & -> & ->).
    apply validate_str_ok in Hr. destruct Hr as (s & -> & ->).
    intros loc' i' u. cbn [map model_dump validate_items].
    destruct (validation TStr (loc' ++ [LIdx i']) (RStr s) u) as [r1 u1] eqn:E1.
    cbn in E1. injection E1 as <- <-.
    rewrite (IH _ _ E). reflexivity.
Qed.

Lemma validate_list_str_ok loc x w v w' :
  validation (TList TStr) loc x w = (Ok v, w') ->
  exists vs, v = VList vs /\ w' = w /\
             forall loc' u,
               validation (TList TStr) loc' (model_dump v) u = (Ok v, u).
Proof.
  destruct x; try (cbn; discriminate). rewrite validate_TList.
  destruct (validate_items (validation TStr) loc 0 xs w) as [[vs|es] w1] eqn:E;
    intros H; cbn in H; inversion H; subst.
  exists vs. destruct (validate_items_str _ _ _ _ _ _ E) as [-> _].
  split; [reflexivity|]. split; [reflexivity|].
  intros loc' u.
  change (model_dump (VList vs)) with (RList (map model_dump vs)).
  rewrite validate_TList.
  now rewrite (validate_items_str_again _ _ _ _ _ _ E).
Qed.

Lemma model_validate_ok_dict cls fs x w inst w' :
  model_validate uuid_of_str datetime_of_str (TModel cls fs) x w
  = (Ok inst, w') ->
  exists kvs, x = RDict kvs.
Proof.
  intros H. apply validate_TModel_ok in H.
  destruct H as (kvs & _ & -> & _). now exists kvs.
Qed.

(** One step of the field loop, with what it does to the world. *)
Lemma validate_field_step kvs loc f w r w1 :
  validate_field kvs loc f w = (r, w1) ->
  advances w w1 /\
  (match field_default f with DefaultFactory F_utcnow => true | _ => false end
   || reads_clock (field_annotation f) = false ->
   reads w1 = reads w).
Proof.
  intros H. pose proof (validate_field_frames kvs loc f w) as F.
  rewrite H in F. exact F.
Qed.

End ValidationFacts.

(** ** The fields each class ends up with *)

Section Classes.

Import Item Address McDonalds.

Lemma ItemCreate_fields :
  ItemCreate = TModel "ItemCreate" (model_fields ItemBase).
Proof. reflexivity. Qed.

Lemma ItemRead_fields :
  ItemRead =
  TModel "ItemRead"
    (model_fields ItemBase ++
     [ Field "created_at" TDatetime (DefaultFactory F_utcnow);
       Field "updated_at" TDatetime (DefaultFactory F_utcnow) ]).
Proof. reflexivity. Qed.

Lemma McDonaldsCreate_fields :
  McDonaldsCreate = TModel "McDonaldsCreate" (model_fields McDonaldsBase).
Proof. reflexivity. Qed.

Lemma McDonaldsRead_fields :
  McDonaldsRead =
  TModel "McDonaldsRead"
    (model_fields McDonaldsBase ++
     [ Field "id" TUUID (DefaultFactory F_uuid4);
       Field "created_at" TDatetime (DefaultFactory F_utcnow);
       Field "updated_at" TDatetime (DefaultFactory F_utcnow) ]).
Proof. reflexivity. Qed.

End Classes.

(** Unfold one model validation into the validation of its fields. *)
Ltac into_fields :=
  unfold model_validate;
  rewrite ?ItemCreate_fields, ?ItemRead_fields, ?McDonaldsCreate_fields,
    ?McDonaldsRead_fields;
  unfold Item.ItemBase, Item.ItemUpdate, McDonalds.McDonaldsBase,
    McDonalds.McDonaldsUpdate;
  rewrite validate_TModel;
  cbn [model_fields app validate_fields validate_field field_name].

(** Take a successful model validation [H] apart, field by field. *)
Ltac fields_of H :=
  unfold model_validate in H;
  rewrite ?ItemCreate_fields, ?ItemRead_fields, ?McDonaldsCreate_fields,
    ?McDonaldsRead_fields in H;
  unfold Item.ItemBase, Item.ItemUpdate, McDonalds.McDonaldsBase,
    McDonalds.McDonaldsUpdate in H;
  apply validate_TModel_dict_ok in H;
  cbn [model_fields app] in H;
  let attrs := fresh "attrs" in
  destruct H as (attrs & -> & H);
  repeat match type of H with
    | validate_fields _ _ _ _ (_ :: _) _ = (Ok _, _) =>
        let v := fresh "v" in
        let w := fresh "w" in
        let rest := fresh "attrs" in
        let Hf := fresh "Hf" in
        apply validate_fields_cons_ok in H;
        destruct H as (v & w & rest & Hf & H & ->);
        cbn [field_name]
    | validate_fields _ _ _ _ [] _ = (Ok _, _) =>
        apply validate_fields_nil_ok in H; destruct H as [-> ->]
    end.

(** ** The claims *)

Section Claims.

Import Item Address McDonalds.

Variable uuid_of_str : string -> option UUID.
Variable datetime_of_str : string -> option datetime.

Local Abbreviation validate_model :=
  (model_validate uuid_of_str datetime_of_str).

(** C1.  The claim: every field of an Update variant is optional, so an
    Item Update payload without [name] validates.  The code declares
    [ItemUpdate.name] with [...] as its default, which makes the key
    required: every Item Update payload without [name] is rejected, with a
    [missing] error at [name]. *)
Theorem C1_ItemUpdate_without_name_is_rejected kvs w :
  lookup "name" kvs = None ->
  exists errs w',
    validate_model ItemUpdate (RDict kvs) w = (Err errs, w') /\
    In (mkError "missing" [LKey "name"] (RDict kvs)) errs.
Proof.
  intros Hname. into_fields. rewrite Hname. cbn [default_value].
  destruct (match lookup "ingredients" kvs with
            | Some x' => _
            | None => _
            end) as [r w1].
  destruct r; cbn; eauto 6 using in_eq.
Qed.

(** C2.  A payload without [ingredients] is never in error on that
    account, and the validated instance carries the empty list: for Item
    Create and for Item Update alike, no error is about [ingredients], a
    successful validation yields [ingredients = []], and validation does
    succeed whenever the remaining keys are acceptable. *)
Theorem C2_absent_ingredients_default_to_empty kvs w :
  lookup "ingredients" kvs = None ->
  (forall e,
      In e (errors_of (fst (validate_model ItemCreate (RDict kvs) w))) ->
      ~ about "ingredients" e) /\
  (forall inst,
      fst (validate_model ItemCreate (RDict kvs) w) = Ok inst ->
      getattr inst "ingredients" = Some (VList [])) /\
  ((forall x, lookup "id" kvs = Some x ->
              is_ok (validate_uuid uuid_of_str [LKey "id"] x) = true) ->
   (exists s, lookup "name" kvs = Some (RStr s)) ->
   is_ok (fst (validate_model ItemCreate (RDict kvs) w)) = true) /\
  (forall e,
      In e (errors_of (fst (validate_model ItemUpdate (RDict kvs) w))) ->
      ~ about "ingredients" e) /\
  (forall inst,
      fst (validate_model ItemUpdate (RDict kvs) w) = Ok inst ->
      getattr inst "ingredients" = Some (VList [])) /\
  (lookup "name" kvs = Some RNone \/
   (exists s, lookup "name" kvs = Some (RStr s)) ->
   is_ok (fst (validate_model ItemUpdate (RDict kvs) w)) = true).
Proof.
  intros Hing. repeat split.
  - intros e. rewrite ItemCreate_fields.
    apply omitted_default_no_error; [exact Hing|].
    cbn. intros f [<-|[<-|[<-|[]]]]; cbn; congruence.
  - intros inst. into_fields. rewrite Hing.
    cbn [default_value call_factory].
    destruct (lookup "id" kvs) as [x|]; destruct (lookup "name" kvs) as [y|];
      cbn;
      repeat match goal with
        | |- context [validate_uuid ?p ?l ?x] =>
            destruct (validate_uuid p l x)
        | |- context [validate_str ?l ?x] => destruct (validate_str l x)
        end; cbn; intros H; inversion H; reflexivity.
  - intros Hid [s Hname]. into_fields. rewrite Hing, Hname.
    cbn [default_value call_factory].
    destruct (lookup "id" kvs) as [x|]; cbn; [|reflexivity].
    specialize (Hid x eq_refl).
    destruct (validate_uuid uuid_of_str [LKey "id"] x);
      [reflexivity | discriminate].
  - intros e. apply omitted_default_no_error; [exact Hing|].
    cbn. intros f [<-|[<-|[]]]; cbn; congruence.
  - intros inst. into_fields. rewrite Hing.
    cbn [default_value call_factory].
    destruct (lookup "name" kvs) as [y|]; cbn.
    + destruct y; cbn; intros H; inversion H; reflexivity.
    + discriminate.
  - intros [Hname|[s Hname]]; into_fields; rewrite Hing, Hname; reflexivity.
Qed.

(** C3, as amended.  On Create the [id] key is optional client input: when
    the payload has no [id], the instance's id is the one [uuid4]
    generates; when the payload supplies an identifier (as an object, or as
    text the library reads as one), the instance carries the supplied
    identifier. *)
Theorem C3_ItemCreate_id_generated_only_when_absent kvs w inst w' :
  validate_model ItemCreate (RDict kvs) w = (Ok inst, w') ->
  exists u,
    getattr inst "id" = Some (VUuid u) /\
    match lookup "id" kvs with
    | None => u = fst (uuid4 w)
    | Some (RUuid supplied) => u = supplied
    | Some (RStr s) => uuid_of_str s = Some u
    | Some _ => False
    end.
Proof.
  intros H. fields_of H. clear Hf0 Hf1. cbn [validate_field] in Hf.
  destruct (lookup "id" kvs) as [x|].
  - destruct x; try discriminate Hf.
    + cbn in Hf. destruct (uuid_of_str s) as [u|] eqn:E; [|discriminate Hf].
      injection Hf as <- _. now exists u.
    + cbn in Hf. injection Hf as <- _. now exists u.
  - cbn in Hf. injection Hf as <- _. now eexists.
Qed.

(** C4, as amended.  A Location Base or Create instance carries exactly
    the attributes [address] and [menu], and no id; the id belongs to the
    Read variant, whose instances always carry one, drawn from [uuid4]
    when the payload has no [id]. *)
Theorem C4_Location_id_belongs_to_Read cls x w inst w' :
  validate_model cls x w = (Ok inst, w') ->
  (In cls [McDonaldsBase; McDonaldsCreate] ->
   attribute_names inst = ["address"; "menu"] /\
   getattr inst "id" = None) /\
  (cls = McDonaldsRead ->
   exists u,
     getattr inst "id" = Some (VUuid u) /\
     forall kvs, x = RDict kvs -> lookup "id" kvs = None ->
                 exists n, drawn w <= n < drawn w' /\ u = rng w n).
Proof.
  intros H. split.
  - intros [<-|[<-|[]]];
      destruct (model_validate_ok_dict _ _ _ _ _ _ _ _ H) as [kvs ->];
      fields_of H; split; reflexivity.
  - intros ->.
    destruct (model_validate_ok_dict _ _ _ _ _ _ _ _ H) as [kvs ->].
    fields_of H.
    apply validate_field_step in Hf, Hf0, Hf2, Hf3.
    destruct Hf as [(R1 & _ & D1 & _) _], Hf0 as [(R2 & _ & D2 & _) _],
        Hf2 as [(_ & _ & D4 & _) _], Hf3 as [(_ & _ & D5 & _) _].
    cbn [validate_field] in Hf1.
    assert (E : exists u, v1 = VUuid u /\
                          (lookup "id" kvs = None ->
                           u = rng w (drawn w1) /\
                           drawn w2 = S (drawn w1))).
    { destruct (lookup "id" kvs) as [given|].
      - rewrite validate_TUUID in Hf1. injection Hf1 as Hf1 _.
        destruct (validate_uuid_ok _ _ _ _ Hf1) as (u & -> & _).
        exists u. split; [reflexivity | discriminate].
      - cbn in Hf1. injection Hf1 as <- <-. eexists. split; [reflexivity|].
        intros _. cbn. split; congruence. }
    destruct E as (u & -> & E). exists u. split; [reflexivity|].
    intros kvs' Ek Habsent. injection Ek as <-.
    destruct (E Habsent) as [-> Hd]. exists (drawn w1). split; [lia|].
    reflexivity.
Qed.

(** C5.  The claim: the [address] of a Location instance is always one
    Address.  The code declares [McDonaldsBase.address] with
    [default_factory=list]: when the payload has no [address], the
    validated instance carries the empty list there, not an Address. *)
Theorem C5_absent_address_becomes_an_empty_list cls kvs w inst w' :
  In cls [McDonaldsBase; McDonaldsCreate; McDonaldsRead] ->
  lookup "address" kvs = None ->
  validate_model cls (RDict kvs) w = (Ok inst, w') ->
  getattr inst "address" = Some (VList []).
Proof.
  intros [<-|[<-|[<-|[]]]] Habsent H; fields_of H;
    cbn [validate_field] in Hf; rewrite Habsent in Hf; cbn in Hf;
    injection Hf as <- _; reflexivity.
Qed.

(** C6, as amended.  An Item's [name] is required text, and any text will
    do: a payload without [name] is rejected with a [missing] error, a
    [name] that is not text is rejected with a [string_type] error, and a
    [name] that is text, the empty string included, raises no error about
    [name] and is carried by the instance as it is. *)
Theorem C6_name_is_required_text cls kvs w :
  In cls [ItemBase; ItemCreate; ItemRead] ->
  (lookup "name" kvs = None ->
   In (mkError "missing" [LKey "name"] (RDict kvs))
      (errors_of (fst (validate_model cls (RDict kvs) w)))) /\
  (forall x, lookup "name" kvs = Some x -> (forall s, x <> RStr s) ->
   In (mkError "string_type" [LKey "name"] x)
      (errors_of (fst (validate_model cls (RDict kvs) w)))) /\
  (forall s, lookup "name" kvs = Some (RStr s) ->
   (forall e, In e (errors_of (fst (validate_model cls (RDict kvs) w))) ->
              ~ about "name" e) /\
   (forall inst, fst (validate_model cls (RDict kvs) w) = Ok inst ->
                 getattr inst "name" = Some (VStr s))).
Proof.
  intros Hcls.
  assert (Hfs : exists c rest,
             cls = TModel c (Field "id" TUUID (DefaultFactory F_uuid4)
                               :: Field "name" TStr Required :: rest) /\
             forall f, In f rest -> field_name f <> "name").
  { destruct Hcls as [<-|[<-|[<-|[]]]]; eexists _, _;
      (split; [reflexivity|]); cbn; intros f Hf;
      repeat (destruct Hf as [<-|Hf]; [discriminate|]); destruct Hf. }
  clear Hcls. destruct Hfs as (c & rest & -> & Hrest).
  split; [|split].
  - intros Hname. unfold model_validate. rewrite validate_TModel.
    cbn [validate_fields validate_field field_name]. rewrite Hname.
    destruct (match lookup "id" kvs with Some x' => _ | None => _ end)
      as [rid w1].
    cbn [default_value].
    destruct (validate_fields _ _ _ _ rest w1) as [rs w2]. cbn [fst].
    rewrite errors_of_map_result, !errors_of_both, !in_app_iff.
    right. left. now left.
  - intros x Hname Hx. unfold model_validate. rewrite validate_TModel.
    cbn [validate_fields validate_field field_name]. rewrite Hname.
    destruct (match lookup "id" kvs with Some x' => _ | None => _ end)
      as [rid w1].
    cbn [validate].
    destruct (validate_fields _ _ _ _ rest w1) as [rs w2]. cbn [fst].
    rewrite errors_of_map_result, !errors_of_both, !in_app_iff.
    right. left. destruct x; try now left. now destruct (Hx s).
  - intros s Hname. split.
    + intros e He Hab.
      destruct (errors_about _ _ _ _ _ _ _ _ He Hab)
        as (f & u & Hin & Hf & Herr).
      destruct Hin as [<-|[<-|Hin]].
      * discriminate Hf.
      * cbn [validate_field] in Herr. rewrite Hname in Herr. exact Herr.
      * now apply Hrest in Hin.
    + intros inst H.
      destruct (validate_model _ (RDict kvs) w) as [r w'] eqn:E.
      cbn [fst] in H. subst r. unfold model_validate in E.
      apply validate_TModel_dict_ok in E. destruct E as (attrs & -> & E).
      apply validate_fields_cons_ok in E.
      destruct E as (v & w1 & attrs1 & _ & E & ->).
      apply validate_fields_cons_ok in E.
      destruct E as (v' & w2 & attrs2 & Hf & _ & ->).
      cbn [validate_field] in Hf. rewrite Hname in Hf. cbn in Hf.
      injection Hf as <- _. reflexivity.
Qed.

(** Both Read classes end with the two timestamp fields, after three
    fields that do not read the clock. *)
Lemma Read_shape cls :
  In cls [ItemRead; McDonaldsRead] ->
  exists c f1 f2 f3,
    cls = TModel c
            [ f1; f2; f3;
              Field "created_at" TDatetime (DefaultFactory F_utcnow);
              Field "updated_at" TDatetime (DefaultFactory F_utcnow) ] /\
    Forall (fun f =>
              match field_default f with
              | DefaultFactory F_utcnow => true
              | _ => false
              end || reads_clock (field_annotation f) = false /\
              field_name f <> "created_at" /\
              field_name f <> "updated_at") [f1; f2; f3].
Proof.
  intros [<-|[<-|[]]]; eexists _, _, _, _; (split; [reflexivity|]);
    repeat constructor; discriminate.
Qed.

(** The timestamps of a validated Read instance: a timestamp the payload
    gives is the payload's, one it leaves out is the next reading of the
    clock. *)
Lemma Read_timestamps cls kvs w inst w' :
  In cls [ItemRead; McDonaldsRead] ->
  validate_model cls (RDict kvs) w = (Ok inst, w') ->
  exists created updated,
    getattr inst "created_at" = Some (VDatetime created) /\
    getattr inst "updated_at" = Some (VDatetime updated) /\
    match lookup "created_at" kvs with
    | Some x =>
        validate_datetime datetime_of_str [LKey "created_at"] x
        = Ok (VDatetime created)
    | None => created = clock w (reads w)
    end /\
    match lookup "updated_at" kvs with
    | Some x =>
        validate_datetime datetime_of_str [LKey "updated_at"] x
        = Ok (VDatetime updated)
    | None =>
        updated = clock w (match lookup "created_at" kvs with
                           | Some _ => reads w
                           | None => S (reads w)
                           end)
    end.
Proof.
  intros Hcls H. apply Read_shape in Hcls.
  destruct Hcls as (c & f1 & f2 & f3 & -> & Hpre).
  inversion_clear Hpre as [|? ? (Q1 & C1 & U1) Hpre'].
  inversion_clear Hpre' as [|? ? (Q2 & C2 & U2) Hpre].
  inversion_clear Hpre as [|? ? (Q3 & C3 & U3) _].
  unfold model_validate in H. apply validate_TModel_dict_ok in H.
  destruct H as (attrs & -> & H).
  apply validate_fields_cons_ok in H.
  destruct H as (v1 & w1 & ? & Hf1 & H & ->).
  apply validate_fields_cons_ok in H.
  destruct H as (v2 & w2 & ? & Hf2 & H & ->).
  apply validate_fields_cons_ok in H.
  destruct H as (v3 & w3 & ? & Hf3 & H & ->).
  apply validate_fields_cons_ok in H.
  destruct H as (vc & wc & ? & Hc & H & ->).
  apply validate_fields_cons_ok in H.
  destruct H as (vu & wu & ? & Hu & H & ->).
  apply validate_fields_nil_ok in H. destruct H as [-> ->].
  apply validate_field_step in Hf1, Hf2, Hf3.
  destruct Hf1 as [(_ & K1 & _) R1], Hf2 as [(_ & K2 & _) R2],
      Hf3 as [(_ & K3 & _) R3].
  specialize (R1 Q1). specialize (R2 Q2). specialize (R3 Q3).
  assert (Hr : reads w3 = reads w) by congruence.
  assert (Hk : clock w3 = clock w) by congruence.
  clear R1 R2 R3 K1 K2 K3 Q1 Q2 Q3.
  cbn [validate_field] in Hc, Hu.
  assert (Ec : exists created,
             vc = VDatetime created /\
             match lookup "created_at" kvs with
             | Some x =>
                 validate_datetime datetime_of_str [LKey "created_at"] x
                 = Ok (VDatetime created) /\ wc = w3
             | None => created = clock w (reads w) /\
                       clock wc = clock w /\ reads wc = S (reads w)
             end).
  { destruct (lookup "created_at" kvs) as [given|].
    - rewrite validate_TDatetime in Hc. injection Hc as Hc <-.
      destruct (validate_datetime_ok _ _ _ _ Hc) as (t & -> & _).
      now exists t.
    - cbn in Hc. injection Hc as <- <-. cbn. rewrite Hk, Hr. now eexists. }
  destruct Ec as (created & -> & Ec).
  assert (Eu : exists updated,
             vu = VDatetime updated /\
             match lookup "updated_at" kvs with
             | Some x =>
                 validate_datetime datetime_of_str [LKey "updated_at"] x
                 = Ok (VDatetime updated)
             | None => updated = clock wc (reads wc)
             end).
  { destruct (lookup "updated_at" kvs) as [given|].
    - rewrite validate_TDatetime in Hu. injection Hu as Hu _.
      destruct (validate_datetime_ok _ _ _ _ Hu) as (t & -> & _).
      now exists t.
    - cbn in Hu. injection Hu as <- _. now eexists. }
  destruct Eu as (updated & -> & Eu).
  exists created, updated.
  assert (L : forall k, k = "created_at" \/ k = "updated_at" ->
              lookup k ((field_name f1, v1) :: (field_name f2, v2)
                          :: (field_name f3, v3)
                          :: [("created_at", VDatetime created);
                              ("updated_at", VDatetime updated)])
              = lookup k [("created_at", VDatetime created);
                          ("updated_at", VDatetime updated)]).
  { intros k Hk'. cbn [lookup].
    assert (N : forall f, field_name f <> "created_at" ->
                          field_name f <> "updated_at" ->
                          String.eqb k (field_name f) = false).
    { intros f A B. apply String.eqb_neq. destruct Hk'; congruence. }
    now rewrite !N. }
  cbn [getattr]. rewrite !L by auto. cbn [field_name].
  split; [reflexivity|]. split; [reflexivity|].
  destruct (lookup "created_at" kvs) as [given|].
  - destruct Ec as [Ec ->]. split; [exact Ec|].
    destruct (lookup "updated_at" kvs); [exact Eu|]. now rewrite Eu, Hk, Hr.
  - destruct Ec as (-> & Kc & Rc). split; [reflexivity|].
    destruct (lookup "updated_at" kvs); [exact Eu|]. now rewrite Eu, Kc, Rc.
Qed.

(** C7, as amended.  The Read variants do not require the timestamps: a
    payload without [created_at] (or without [updated_at]) raises no error
    about that key, and the validated instance carries, for each timestamp
    left out, the next reading of the clock. *)
Theorem C7_Read_timestamps_default_to_the_clock cls kvs w :
  In cls [ItemRead; McDonaldsRead] ->
  (lookup "created_at" kvs = None ->
   (forall e, In e (errors_of (fst (validate_model cls (RDict kvs) w))) ->
              ~ about "created_at" e) /\
   (forall inst w',
       validate_model cls (RDict kvs) w = (Ok inst, w') ->
       getattr inst "created_at" = Some (VDatetime (clock w (reads w))))) /\
  (lookup "updated_at" kvs = None ->
   (forall e, In e (errors_of (fst (validate_model cls (RDict kvs) w))) ->
              ~ about "updated_at" e) /\
   (forall inst w',
       validate_model cls (RDict kvs) w = (Ok inst, w') ->
       getattr inst "updated_at"
       = Some (VDatetime (clock w (match lookup "created_at" kvs with
                                   | Some _ => reads w
                                   | None => S (reads w)
                                   end))))).
Proof.
  intros Hcls.
  assert (Hno : forall k, k = "created_at" \/ k = "updated_at" ->
                lookup k kvs = None ->
                forall e,
                  In e (errors_of (fst (validate_model cls (RDict kvs) w))) ->
                  ~ about k e).
  { intros k Hk Habsent e.
    destruct (Read_shape _ Hcls) as (c & f1 & f2 & f3 & -> & Hpre).
    apply omitted_default_no_error; [exact Habsent|].
    rewrite Forall_forall in Hpre.
    intros f [<-|[<-|[<-|[<-|[<-|[]]]]]] Hf;
      try discriminate;
      match goal with
      | |- field_default ?g <> _ =>
          destruct (Hpre g) as (_ & A & B); [cbn; tauto|];
          destruct Hk; congruence
      end. }
  split; intros Habsent; (split; [apply Hno; tauto|]); intros inst w' H;
    destruct (Read_timestamps _ _ _ _ _ Hcls H)
      as (created & updated & Gc & Gu & Hc & Hu);
    rewrite Habsent in *; congruence.
Qed.

(** C9.  Read is field-wise a superset of Base: the dump of every
    validated Item Read instance validates as an Item Base, in any world
    and without touching it, and the Base instance has the id, the name and
    the ingredients of the Read instance. *)
Theorem C9_ItemRead_dump_validates_as_ItemBase x w inst w' :
  validate_model ItemRead x w = (Ok inst, w') ->
  forall w2, exists base,
    validate_model ItemBase (model_dump inst) w2 = (Ok base, w2) /\
    getattr base "id" = getattr inst "id" /\
    getattr base "name" = getattr inst "name" /\
    getattr base "ingredients" = getattr inst "ingredients".
Proof.
  intros H w2. unfold model_validate in H. rewrite ItemRead_fields in H.
  apply validate_TModel_ok in H. destruct H as (kvs & attrs & -> & -> & H).
  cbn [model_fields ItemBase app] in H.
  apply validate_fields_cons_ok in H.
  destruct H as (vid & w_id & ? & Hid & H & ->).
  apply validate_fields_cons_ok in H.
  destruct H as (vname & w_name & ? & Hname & H & ->).
  apply validate_fields_cons_ok in H.
  destruct H as (ving & w_ing & ? & Hing & _ & ->).
  cbn [validate_field field_name] in Hid, Hname, Hing.
  assert (Eid : exists u, vid = VUuid u).
  { destruct (lookup "id" kvs) as [y|]; cbn in Hid.
    - injection Hid as Hid _. apply validate_uuid_ok in Hid.
      destruct Hid as (u & -> & _). now exists u.
    - injection Hid as <- _. now eexists. }
  assert (Ename : exists s, vname = VStr s).
  { destruct (lookup "name" kvs) as [y|]; cbn in Hname.
    - injection Hname as Hname _. apply validate_str_ok in Hname.
      destruct Hname as (s & _ & ->). now exists s.
    - discriminate Hname. }
  assert (Eing : forall loc' u,
             validate uuid_of_str datetime_of_str (TList TStr) loc'
               (model_dump ving) u = (Ok ving, u)).
  { destruct (lookup "ingredients" kvs) as [y|].
    - apply validate_list_str_ok in Hing.
      destruct Hing as (vs & -> & _ & Hagain). exact Hagain.
    - cbn in Hing. injection Hing as <- _. reflexivity. }
  destruct Eid as [u ->]. destruct Ename as [s ->].
  exists (VModel "ItemBase"
            [("id", VUuid u); ("name", VStr s); ("ingredients", ving)]).
  split; [|repeat split].
  unfold model_validate, ItemBase.
  match goal with
  | |- context [model_dump ?v] =>
      match v with
      | VModel _ _ =>
          let d := eval cbn [model_dump] in (model_dump v) in
          change (model_dump v) with d
      end
  end.
  rewrite validate_TModel.
  cbn [validate_fields validate_field field_name lookup String.eqb
         Ascii.eqb Bool.eqb].
  rewrite validate_TUUID. cbn [validate_uuid].
  rewrite validate_TStr. cbn [validate_str].
  rewrite Eing. reflexivity.
Qed.

(** C10.  The two fields of the Location Update variant have different
    omission defaults: without [address] the instance has [address =
    None], without [menu] it has [menu = []]; the empty payload validates
    to exactly that pair, and so does the payload that clears the menu. *)
Theorem C10_McDonaldsUpdate_omission_defaults kvs w :
  (lookup "address" kvs = None ->
   forall inst w',
     validate_model McDonaldsUpdate (RDict kvs) w = (Ok inst, w') ->
     getattr inst "address" = Some VNone) /\
  (lookup "menu" kvs = None ->
   forall inst w',
     validate_model McDonaldsUpdate (RDict kvs) w = (Ok inst, w') ->
     getattr inst "menu" = Some (VList [])) /\
  (lookup "address" kvs = None -> lookup "menu" kvs = None ->
   validate_model McDonaldsUpdate (RDict kvs) w
   = (Ok (VModel "McDonaldsUpdate"
            [("address", VNone); ("menu", VList [])]), w)) /\
  validate_model McDonaldsUpdate (RDict [("menu", RList [])]) w
  = validate_model McDonaldsUpdate (RDict []) w.
Proof.
  repeat split.
  - intros Habsent inst w' H. fields_of H.
    cbn [validate_field] in Hf. rewrite Habsent in Hf. cbn in Hf.
    injection Hf as <- _. reflexivity.
  - intros Habsent inst w' H. fields_of H.
    cbn [validate_field] in Hf0. rewrite Habsent in Hf0. cbn in Hf0.
    injection Hf0 as <- _. reflexivity.
  - intros Ha Hm. into_fields. rewrite Ha, Hm. reflexivity.
Qed.

End Claims.

(** ** The claims on the source's examples *)

Section OnExamples.

Import Item Address McDonalds Examples.

Local Abbreviation U := Lexical.uuid_of_string.
Local Abbreviation D := Lexical.datetime_of_string.

(** The Update payload of the spec's scenario, [{ingredients: ["Mac
    Sauce"]}], is rejected for want of a name. *)
Lemma C1_witness :
  exists errs w',
    run ItemUpdate (RDict [("ingredients", RList [RStr "Mac Sauce"])]) w0
    = (Err errs, w') /\
    In (mkError "missing" [LKey "name"]
          (RDict [("ingredients", RList [RStr "Mac Sauce"])])) errs.
Proof.
  apply (C1_ItemUpdate_without_name_is_rejected U D
           [("ingredients", RList [RStr "Mac Sauce"])] w0).
  reflexivity.
Defined.

(** [{name: "Big Mac"}] validates as a Create payload, and [{name: null}]
    as an Update payload, each with an empty ingredient list. *)
Lemma C2_witness :
  attr (run ItemCreate name_only w0) "ingredients" = Some (VList []) /\
  attr (run ItemUpdate (RDict [("name", RNone)]) w0) "ingredients"
  = Some (VList []) /\
  is_ok (fst (run ItemCreate name_only w0)) = true /\
  is_ok (fst (run ItemUpdate (RDict [("name", RNone)]) w0)) = true.
Proof.
  pose proof (C2_absent_ingredients_default_to_empty U D
                [("name", RStr "Big Mac")] w0 eq_refl)
    as (_ & Hc & Hok & _).
  pose proof (C2_absent_ingredients_default_to_empty U D
                [("name", RNone)] w0 eq_refl)
    as (_ & _ & _ & _ & Hu & Hok').
  split; [exact (Hc _ eq_refl)|].
  split; [exact (Hu _ eq_refl)|].
  split.
  - apply Hok; [discriminate | now exists "Big Mac"].
  - apply Hok'. now left.
Defined.

(** In one and the same world, whose generator would give 1, the instance
    gets the identifier its payload names: that of the source's item
    example, or that of the source's store example. *)
Lemma C3_counterexample :
  attr (run ItemCreate big_mac w0) "id"
  = Some (VUuid 113059749145936325402354257176981405696%N) /\
  attr (run ItemCreate
          (RDict [("id", RStr "99999999-9999-4999-8999-999999999999");
                  ("name", RStr "Big Mac")]) w0) "id"
  = Some (VUuid 204169420152562700287553213382836984217%N) /\
  fst (uuid4 w0) = 1%N.
Proof. repeat split; reflexivity. Defined.

Lemma C3_witness :
  (exists u,
      attr (run ItemCreate name_only w0) "id" = Some (VUuid u) /\
      u = fst (uuid4 w0)) /\
  (exists u,
      attr (run ItemCreate big_mac w0) "id" = Some (VUuid u) /\
      U "550e8400-e29b-41d4-a716-446655440000" = Some u).
Proof.
  split.
  - exact (C3_ItemCreate_id_generated_only_when_absent U D
             [("name", RStr "Big Mac")] w0 _ _ eq_refl).
  - exact (C3_ItemCreate_id_generated_only_when_absent U D
             _ w0 _ _ (eq_refl : run ItemCreate big_mac w0 = (_, _))).
Defined.

(** The store of the source's example validates as a Create payload and
    as a Base, and the instance has no id. *)
Lemma C4_counterexample :
  is_ok (fst (run McDonaldsCreate store w0)) = true /\
  attr (run McDonaldsCreate store w0) "id" = None /\
  is_ok (fst (run McDonaldsBase store w0)) = true /\
  attr (run McDonaldsBase store w0) "id" = None.
Proof. repeat split; reflexivity. Defined.

(** On the example store: the Create instance has the two attributes of
    the Base, and the Read instance the third identifier drawn (the
    address brings its own, the menu item draws the first). *)
Lemma C4_witness :
  (attribute_names
     (VModel "McDonaldsCreate" [("address", VList []); ("menu", VList [])])
   = ["address"; "menu"] /\
   getattr
     (VModel "McDonaldsCreate" [("address", VList []); ("menu", VList [])])
     "id" = None) /\
  (exists u,
      attr (run McDonaldsRead store w0) "id" = Some (VUuid u) /\
      exists n, 0 <= n < 2 /\ u = rng w0 n).
Proof.
  split.
  - apply (C4_Location_id_belongs_to_Read U D McDonaldsCreate (RDict []) w0
             _ w0 eq_refl).
    right. now left.
  - destruct (C4_Location_id_belongs_to_Read U D McDonaldsRead store w0
                _ _ eq_refl) as [_ H].
    destruct (H eq_refl) as (u & Hu & Hn). exists u. split; [exact Hu|].
    exact (Hn _ eq_refl eq_refl).
Defined.

(** [McDonaldsBase()] and [McDonaldsCreate.model_validate({})] succeed,
    with a list where the address should be. *)
Lemma C5_witness :
  attr (run McDonaldsBase (RDict []) w0) "address" = Some (VList []) /\
  attr (run McDonaldsCreate (RDict []) w0) "address" = Some (VList []).
Proof.
  split.
  - apply (C5_absent_address_becomes_an_empty_list U D McDonaldsBase [] w0
             _ w0); [now left | reflexivity | reflexivity].
  - apply (C5_absent_address_becomes_an_empty_list U D McDonaldsCreate [] w0
             _ w0); [right; now left | reflexivity | reflexivity].
Defined.

(** A Create payload whose name is the empty string validates. *)
Lemma C6_counterexample :
  fst (run ItemCreate (RDict [("name", RStr "")]) w0)
  = Ok (VModel "ItemCreate"
          [("id", VUuid 1%N); ("name", VStr ""); ("ingredients", VList [])]).
Proof. reflexivity. Defined.

Lemma C6_witness :
  In (mkError "missing" [LKey "name"] (RDict []))
     (errors_of (fst (run ItemCreate (RDict []) w0))) /\
  In (mkError "string_type" [LKey "name"] RNone)
     (errors_of (fst (run ItemCreate (RDict [("name", RNone)]) w0))) /\
  attr (run ItemCreate (RDict [("name", RStr "")]) w0) "name"
  = Some (VStr "").
Proof.
  assert (Hcls : In ItemCreate [ItemBase; ItemCreate; ItemRead])
    by (right; now left).
  split; [|split].
  - apply (C6_name_is_required_text U D ItemCreate [] w0 Hcls). reflexivity.
  - destruct (C6_name_is_required_text U D ItemCreate [("name", RNone)] w0
                Hcls) as (_ & H & _).
    apply (H RNone); [reflexivity | discriminate].
  - destruct (C6_name_is_required_text U D ItemCreate [("name", RStr "")] w0
                Hcls) as (_ & _ & H).
    destruct (H "" eq_refl) as [_ Hname]. exact (Hname _ eq_refl).
Defined.

(** A Read payload without timestamps validates, for an item and for a
    store; the item's timestamps are the first two readings of the clock. *)
Lemma C7_counterexample :
  fst (run ItemRead name_only w0)
  = Ok (VModel "ItemRead"
          [("id", VUuid 1%N); ("name", VStr "Big Mac");
           ("ingredients", VList []);
           ("created_at", VDatetime 1736936430000000%Z);
           ("updated_at", VDatetime 1736936430000001%Z)]) /\
  is_ok (fst (run McDonaldsRead store w0)) = true.
Proof. split; reflexivity. Defined.

Lemma C7_witness :
  attr (run ItemRead name_only w0) "created_at"
  = Some (VDatetime (clock w0 0)) /\
  attr (run McDonaldsRead store w0) "updated_at"
  = Some (VDatetime (clock w0 1)).
Proof.
  split.
  - destruct (C7_Read_timestamps_default_to_the_clock U D ItemRead
                [("name", RStr "Big Mac")] w0) as [H _]; [now left|].
    destruct (H eq_refl) as [_ Hc]. exact (Hc _ _ eq_refl).
  - destruct (C7_Read_timestamps_default_to_the_clock U D McDonaldsRead
                store_items w0 (or_intror (or_introl eq_refl))) as [_ H].
    destruct (H eq_refl) as [_ Hu]. exact (Hu _ _ eq_refl).
Defined.

(** A Read payload created on 16 January and updated on 15 January
    validates, and the instance keeps the two instants in that order. *)
Lemma C8_counterexample :
  fst (run ItemRead backwards w0)
  = Ok (VModel "ItemRead"
          [("id", VUuid 1%N); ("name", VStr "Big Mac");
           ("ingredients", VList []);
           ("created_at", VDatetime 1737028800000000%Z);
           ("updated_at", VDatetime 1736936430000000%Z)]) /\
  (1736936430000000 < 1737028800000000)%Z.
Proof. split; reflexivity. Defined.

(** The Read instance of the example item, dumped, validates as a Base
    with the same identifier. *)
Lemma C9_witness :
  exists base,
    run ItemBase
      (RDict [("id", RUuid 113059749145936325402354257176981405696%N);
              ("name", RStr "Big Mac");
              ("ingredients", RList (map RStr big_mac_ingredients));
              ("created_at", RDatetime 1736936430000000%Z);
              ("updated_at", RDatetime 1736936430000001%Z)]) w0
    = (Ok base, w0) /\
    getattr base "id"
    = Some (VUuid 113059749145936325402354257176981405696%N).
Proof.
  destruct (C9_ItemRead_dump_validates_as_ItemBase U D big_mac w0 _ _
              eq_refl w0) as (base & Hrun & Hid & _).
  exists base. split; [exact Hrun | exact Hid].
Defined.

(** The empty Update payload of a store validates to no address and an
    empty menu. *)
Lemma C10_witness :
  run McDonaldsUpdate (RDict []) w0
  = (Ok (VModel "McDonaldsUpdate" [("address", VNone); ("menu", VList [])]),
     w0).
Proof.
  destruct (C10_McDonaldsUpdate_omission_defaults U D [] w0)
    as (_ & _ & H & _).
  exact (H eq_refl eq_refl).
Defined.

End OnExamples.

(** ** Further facts about the field loop and the item loop *)

Section LoopFacts.

Variable uuid_of_str : string -> option UUID.
Variable datetime_of_str : string -> option datetime.

Local Abbreviation validation := (validate uuid_of_str datetime_of_str).
Local Abbreviation field_step := (validate_field uuid_of_str datetime_of_str).
Local Abbreviation field_loop := (validate_fields uuid_of_str datetime_of_str).

(** An error a field makes in every world is an error of the model: the
    loop does not stop at an earlier failure. *)
Lemma validate_fields_errors_intro kvs loc fs f e :
  In f fs ->
  (forall w1, In e (errors_of (fst (field_step kvs loc f w1)))) ->
  forall w, In e (errors_of (fst (field_loop kvs loc fs w))).
Proof.
  intros Hin He. induction fs as [|g rest IH]; [destruct Hin|].
  intros w. cbn [validate_fields].
  destruct (field_step kvs loc g w) as [r1 w1] eqn:E1.
  pose proof (fun H => IH H w1) as IH'.
  destruct (field_loop kvs loc rest w1) as [rs w2].
  cbn [fst] in *. rewrite errors_of_both, in_app_iff.
  destruct Hin as [->|Hin].
  - left. specialize (He w). now rewrite E1 in He.
  - right. auto.
Qed.

(** The same for the items of a list. *)
Lemma validate_items_errors_intro (v : validator) loc xs i x e :
  nth_error xs i = Some x ->
  forall i0,
    (forall w1, In e (errors_of (fst (v (loc ++ [LIdx (i0 + i)]) x w1)))) ->
    forall w, In e (errors_of (fst (validate_items v loc i0 xs w))).
Proof.
  revert i. induction xs as [|y xs IH]; intros i Hnth i0 He w.
  - destruct i; discriminate Hnth.
  - cbn [validate_items].
    destruct (v (loc ++ [LIdx i0]) y w) as [r w1] eqn:E1.
    destruct i as [|i].
    + injection Hnth as ->. specialize (He w).
      rewrite Nat.add_0_r, E1 in He.
      destruct (validate_items v loc (S i0) xs w1) as [rs w2].
      cbn [fst] in *. rewrite errors_of_both, in_app_iff. now left.
    + cbn [nth_error] in Hnth.
      assert (He' : forall w2,
                 In e (errors_of (fst (v (loc ++ [LIdx (S i0 + i)]) x w2)))).
      { intros w2. specialize (He w2).
        now replace (i0 + S i) with (S i0 + i) in He by lia. }
      pose proof (IH i Hnth (S i0) He' w1) as H.
      destruct (validate_items v loc (S i0) xs w1) as [rs w2].
      cbn [fst] in *. rewrite errors_of_both, in_app_iff. now right.
Qed.

(** An error of the item loop was made by one of the items, at its index. *)
Lemma validate_items_errors_item (v : validator) loc xs i0 w e :
  In e (errors_of (fst (validate_items v loc i0 xs w))) ->
  exists i x w1,
    nth_error xs i = Some x /\
    In e (errors_of (fst (v (loc ++ [LIdx (i0 + i)]) x w1))).
Proof.
  revert i0 w. induction xs as [|y xs IH]; intros i0 w; cbn [validate_items].
  - cbn. tauto.
  - destruct (v (loc ++ [LIdx i0]) y w) as [r w1] eqn:E1.
    pose proof (IH (S i0) w1) as H2.
    destruct (validate_items v loc (S i0) xs w1) as [rs w2].
    cbn [fst] in *. rewrite errors_of_both, in_app_iff. intros [H|H].
    + exists 0, y, w. rewrite Nat.add_0_r, E1. now split.
    + destruct (H2 H) as (i & x & u & Hnth & He).
      exists (S i), x, u. split; [exact Hnth|].
      now replace (i0 + S i) with (S i0 + i) by lia.
Qed.

(** A successful item loop validated every item, in order. *)
Lemma validate_items_ok (v : validator) loc xs i0 w vs w' :
  validate_items v loc i0 xs w = (Ok vs, w') ->
  Forall2 (fun x y => exists i w1 w2, v (loc ++ [LIdx i]) x w1 = (Ok y, w2))
    xs vs.
Proof.
  revert i0 w vs. induction xs as [|x xs IH]; intros i0 w vs;
    cbn [validate_items].
  - intros H. inversion H. constructor.
  - destruct (v (loc ++ [LIdx i0]) x w) as [r w1] eqn:E1.
    destruct (validate_items v loc (S i0) xs w1) as [rs w2] eqn:E2.
    intros H. injection H as H <-. apply both_ok in H.
    destruct H as (y & ys & -> & -> & ->).
    constructor; [now exists i0, w, w1 | eapply IH; eassumption].
Qed.

(** The result of validating a list, when the list is accepted. *)
Lemma validate_TList_ok item loc x w v w' :
  validation (TList item) loc x w = (Ok v, w') ->
  exists xs vs,
    x = RList xs /\ v = VList vs /\
    validate_items (validation item) loc 0 xs w = (Ok vs, w').
Proof.
  destruct x; try (cbn; discriminate). rewrite validate_TList.
  destruct (validate_items (validation item) loc 0 xs w) as [[vs|es] w1] eqn:E;
    intros H; cbn in H; inversion H; subst.
  now exists xs, vs.
Qed.

End LoopFacts.

(** ** Further properties of the classes *)

Section MoreProperties.

Import Item Address McDonalds.

Variable uuid_of_str : string -> option UUID.
Variable datetime_of_str : string -> option datetime.

Local Abbreviation validate_model :=
  (model_validate uuid_of_str datetime_of_str).

Lemma instance_of_both {A B C} (f : A -> B -> C) ra rb :
  instance_of (both f ra rb) =
  match instance_of ra, instance_of rb with
  | Some a, Some b => Some (f a b)
  | _, _ => None
  end.
Proof. now destruct ra, rb. Qed.

Lemma instance_of_map_result {A B} (f : A -> B) r :
  instance_of (map_result f r) = option_map f (instance_of r).
Proof. now destruct r. Qed.

(** Every class of the two files is a model. *)
Lemma classes_are_models cls :
  In cls (item_classes ++ location_classes) ->
  exists c, cls = TModel c (model_fields cls).
Proof.
  cbn. intros H.
  repeat (destruct H as [<-|H]; [eexists; reflexivity|]). destruct H.
Qed.

(** The field loop reads the payload at the names of its fields only; the
    rest of the payload shows in the input quoted by [missing] errors, and
    nowhere else. *)
Lemma fields_read_their_keys kvs kvs' loc fs :
  (forall k, In k (map field_name fs) -> lookup k kvs = lookup k kvs') ->
  forall w,
    instance_of (fst (validate_fields uuid_of_str datetime_of_str
                        kvs loc fs w))
    = instance_of (fst (validate_fields uuid_of_str datetime_of_str
                          kvs' loc fs w)) /\
    snd (validate_fields uuid_of_str datetime_of_str kvs loc fs w)
    = snd (validate_fields uuid_of_str datetime_of_str kvs' loc fs w).
Proof.
  induction fs as [|[name ann dflt] rest IH]; intros Hk w; [now split|].
  cbn [map field_name In] in Hk.
  cbn [validate_fields validate_field field_name].
  rewrite <- (Hk name (or_introl eq_refl)).
  assert (Hstep :
           forall r1 w1 r1' w1',
             match lookup name kvs with
             | Some x' =>
                 validate uuid_of_str datetime_of_str ann
                   (loc ++ [LKey name]) x' w
             | None =>
                 default_value (loc ++ [LKey name]) (RDict kvs) dflt w
             end = (r1, w1) ->
             match lookup name kvs with
             | Some x' =>
                 validate uuid_of_str datetime_of_str ann
                   (loc ++ [LKey name]) x' w
             | None =>
                 default_value (loc ++ [LKey name]) (RDict kvs') dflt w
             end = (r1', w1') ->
             instance_of r1 = instance_of r1' /\ w1 = w1').
  { intros r1 w1 r1' w1'. destruct (lookup name kvs).
    - intros -> H. now inversion H.
    - destruct dflt as [|d|f]; cbn; try destruct (call_factory f w);
        intros H H'; inversion H; inversion H'; subst; now split. }
  destruct (match lookup name kvs with
            | Some x' => _
            | None => default_value _ (RDict kvs) _ _
            end) as [r1 w1].
  destruct (match lookup name kvs with
            | Some x' => _
            | None => default_value _ (RDict kvs') _ _
            end) as [r1' w1'].
  destruct (Hstep _ _ _ _ eq_refl eq_refl) as [Hr <-].
  destruct (IH (fun k H => Hk k (or_intror H)) w1) as [Hi Hw].
  destruct (validate_fields _ _ kvs loc rest w1) as [rs w2].
  destruct (validate_fields _ _ kvs' loc rest w1) as [rs' w2'].
  cbn [fst snd] in *. rewrite !instance_of_both, Hr, Hi. now split.
Qed.

(** X1.  Validation reads a payload at the names of the class's fields
    only: two payloads that agree on those keys, whatever other keys they
    hold, produce the same instance, or fail alike, and leave the same
    world. *)
Theorem X1_only_declared_keys_are_read cls kvs kvs' w :
  In cls (item_classes ++ location_classes) ->
  (forall k, In k (field_names cls) -> lookup k kvs = lookup k kvs') ->
  instance_of (fst (validate_model cls (RDict kvs) w))
  = instance_of (fst (validate_model cls (RDict kvs') w)) /\
  snd (validate_model cls (RDict kvs) w)
  = snd (validate_model cls (RDict kvs') w).
Proof.
  intros Hcls Hk. destruct (classes_are_models _ Hcls) as [c E].
  unfold field_names in Hk. revert Hk. rewrite E. cbn [model_fields].
  generalize (model_fields cls). intros fs Hk.
  unfold model_validate. rewrite !validate_TModel.
  destruct (fields_read_their_keys kvs kvs' [] fs Hk w) as [Hi Hw].
  destruct (validate_fields _ _ kvs [] fs w) as [r1 w1].
  destruct (validate_fields _ _ kvs' [] fs w) as [r2 w2].
  cbn [fst snd] in *. rewrite !instance_of_map_result, Hi. now split.
Qed.

(** X2.  Every error of a class is reported under one of its fields: the
    location of an error begins with the name of a field the class declares
    or inherits. *)
Theorem X2_errors_name_a_declared_field cls kvs w e :
  In cls (item_classes ++ location_classes) ->
  In e (errors_of (fst (validate_model cls (RDict kvs) w))) ->
  exists k, In k (field_names cls) /\ about k e.
Proof.
  intros Hcls He. destruct (classes_are_models _ Hcls) as [c E].
  unfold field_names. revert He. rewrite E. cbn [model_fields].
  generalize (model_fields cls). intros fs He.
  unfold model_validate in He. rewrite validate_TModel in He.
  pose proof (validate_fields_errors uuid_of_str datetime_of_str kvs [] fs w e)
    as H.
  destruct (validate_fields _ _ kvs [] fs w) as [r w']. cbn [fst] in *.
  rewrite errors_of_map_result in He.
  destruct (H He) as (f & u & Hin & Hf).
  apply validate_field_errors in Hf. destruct Hf as [rest Hloc].
  exists (field_name f). split; [now apply in_map | now exists rest].
Qed.

(** In each Location class the menu is the second field, and a list given
    for it is validated as a list of [ItemBase]. *)
Lemma Location_menu cls :
  In cls location_classes ->
  exists c f1 ann d rest,
    cls = TModel c (f1 :: Field "menu" ann d :: rest) /\
    (forall loc xs w,
        validate uuid_of_str datetime_of_str ann loc (RList xs) w
        = validate uuid_of_str datetime_of_str (TList ItemBase) loc
            (RList xs) w) /\
    field_name f1 <> "menu" /\
    ~ In "menu" (map field_name rest).
Proof.
  cbn. intros H.
  repeat (destruct H as [<-|H];
          [eexists _, _, _, _, _; split; [reflexivity|];
           split; [reflexivity|]; split; [discriminate|];
           cbn; intros K;
           repeat (destruct K as [K|K]; [discriminate K|]); destruct K|]).
  destruct H.
Qed.

(** What a validated [ItemBase] looks like. *)
Lemma ItemBase_ok loc x w v w' :
  validate uuid_of_str datetime_of_str ItemBase loc x w = (Ok v, w') ->
  exists item s u ings,
    x = RDict item /\ lookup "name" item = Some (RStr s) /\
    v = VModel "ItemBase"
          [("id", VUuid u); ("name", VStr s); ("ingredients", VList ings)].
Proof.
  intros H. unfold ItemBase in H. apply validate_TModel_ok in H.
  destruct H as (item & attrs & -> & -> & H).
  apply validate_fields_cons_ok in H.
  destruct H as (vid & w1 & ? & Hid & H & ->).
  apply validate_fields_cons_ok in H.
  destruct H as (vname & w2 & ? & Hname & H & ->).
  apply validate_fields_cons_ok in H.
  destruct H as (ving & w3 & ? & Hing & H & ->).
  apply validate_fields_nil_ok in H. destruct H as [-> ->].
  cbn [validate_field field_name] in *.
  assert (Eid : exists u, vid = VUuid u).
  { destruct (lookup "id" item) as [y|].
    - rewrite validate_TUUID in Hid. injection Hid as Hid _.
      apply validate_uuid_ok in Hid. destruct Hid as (u & -> & _). eauto.
    - cbn in Hid. injection Hid as <- _. eauto. }
  assert (Ename : exists s, lookup "name" item = Some (RStr s) /\
                            vname = VStr s).
  { destruct (lookup "name" item) as [y|]; [|discriminate Hname].
    rewrite validate_TStr in Hname. injection Hname as Hname _.
    apply validate_str_ok in Hname. destruct Hname as (s & -> & ->). eauto. }
  assert (Eing : exists ings, ving = VList ings).
  { destruct (lookup "ingredients" item) as [y|].
    - apply validate_list_str_ok in Hing.
      destruct Hing as (vs & -> & _). eauto.
    - cbn in Hing. injection Hing as <- _. eauto. }
  destruct Eid as [u ->], Ename as (s & Hs & ->), Eing as [ings ->].
  now exists item, s, u, ings.
Qed.

(** X3.  A menu given as a list is validated item by item, in order, each
    item as an [ItemBase] whatever the variant of the store: the validated
    menu has one instance per payload item, in the payload's order, with the
    item's name and with the attributes [id], [name] and [ingredients] and
    no others. *)
Theorem X3_menu_keeps_its_items_in_order cls kvs xs w inst w' :
  In cls location_classes ->
  lookup "menu" kvs = Some (RList xs) ->
  validate_model cls (RDict kvs) w = (Ok inst, w') ->
  exists vs,
    getattr inst "menu" = Some (VList vs) /\
    Forall2 (fun x v =>
               exists item s,
                 x = RDict item /\
                 lookup "name" item = Some (RStr s) /\
                 getattr v "name" = Some (VStr s) /\
                 attribute_names v = ["id"; "name"; "ingredients"])
      xs vs.
Proof.
  intros Hcls Hmenu H.
  destruct (Location_menu _ Hcls)
    as (c & f1 & ann & d & rest & -> & Hann & N & _).
  unfold model_validate in H. apply validate_TModel_dict_ok in H.
  destruct H as (attrs & -> & H).
  apply validate_fields_cons_ok in H.
  destruct H as (v1 & w1 & ? & _ & H & ->).
  apply validate_fields_cons_ok in H.
  destruct H as (vm & w2 & ? & Hm & _ & ->).
  cbn [validate_field] in Hm. rewrite Hmenu, Hann in Hm.
  apply validate_TList_ok in Hm.
  destruct Hm as (xs' & vs & E & -> & Hm). injection E as <-.
  exists vs. split.
  - cbn [getattr lookup field_name].
    replace (String.eqb "menu" (field_name f1)) with false; [reflexivity|].
    symmetry. apply String.eqb_neq. congruence.
  - apply validate_items_ok in Hm.
    eapply Forall2_impl; [|exact Hm].
    intros x v (i & u1 & u2 & Hv). apply ItemBase_ok in Hv.
    destruct Hv as (item & s & u & ings & -> & Hs & ->).
    now exists item, s.
Qed.

(** X4.  A menu item without a name fails the whole store, whatever the
    rest of the payload: the errors hold a [missing] error at the item's
    index under [menu], quoting that item. *)
Theorem X4_nameless_menu_item_is_reported_at_its_index cls kvs xs i item w :
  In cls location_classes ->
  lookup "menu" kvs = Some (RList xs) ->
  nth_error xs i = Some (RDict item) ->
  lookup "name" item = None ->
  exists errs w',
    validate_model cls (RDict kvs) w = (Err errs, w') /\
    In (mkError "missing" [LKey "menu"; LIdx i; LKey "name"] (RDict item))
       errs.
Proof.
  intros Hcls Hmenu Hnth Hname.
  destruct (Location_menu _ Hcls)
    as (c & f1 & ann & d & rest & -> & Hann & N & _).
  assert (He : In (mkError "missing" [LKey "menu"; LIdx i; LKey "name"]
                     (RDict item))
                  (errors_of (fst (validate_model
                                     (TModel c (f1 :: Field "menu" ann d
                                                  :: rest))
                                     (RDict kvs) w)))).
  { unfold model_validate. rewrite validate_TModel.
    pose proof (validate_fields_errors_intro uuid_of_str datetime_of_str
                  kvs [] (f1 :: Field "menu" ann d :: rest)
                  (Field "menu" ann d)
                  (mkError "missing" [LKey "menu"; LIdx i; LKey "name"]
                     (RDict item))) as H.
    destruct (validate_fields _ _ kvs [] _ w) as [r w'] eqn:E.
    cbn [fst]. rewrite errors_of_map_result.
    specialize (H (or_intror (or_introl eq_refl))).
    assert (Hf : forall w1,
               In (mkError "missing" [LKey "menu"; LIdx i; LKey "name"]
                     (RDict item))
                  (errors_of (fst (validate_field uuid_of_str datetime_of_str
                                     kvs [] (Field "menu" ann d) w1)))).
    { intros w1. cbn [validate_field]. rewrite Hmenu, Hann, validate_TList.
      pose proof (validate_items_errors_intro
                    (validate uuid_of_str datetime_of_str ItemBase)
                    ([] ++ [LKey "menu"]) xs i (RDict item)
                    (mkError "missing" [LKey "menu"; LIdx i; LKey "name"]
                       (RDict item)) Hnth 0) as Hi.
      destruct (validate_items _ _ 0 xs w1) as [rs w2] eqn:E2.
      cbn [fst]. rewrite errors_of_map_result.
      specialize (fun P => Hi P w1). rewrite E2 in Hi. apply Hi.
      intros u. unfold ItemBase. rewrite validate_TModel.
      pose proof (validate_fields_errors_intro uuid_of_str datetime_of_str
                    item (([] ++ [LKey "menu"]) ++ [LIdx (0 + i)])
                    (model_fields ItemBase) (Field "name" TStr Required)
                    (mkError "missing" [LKey "menu"; LIdx i; LKey "name"]
                       (RDict item))
                    (or_intror (or_introl eq_refl))) as Hn.
      cbn [model_fields ItemBase] in Hn.
      destruct (validate_fields _ _ item _ _ u) as [r3 w3] eqn:E3.
      cbn [fst]. rewrite errors_of_map_result.
      specialize (fun P => Hn P u). rewrite E3 in Hn. apply Hn.
      intros u'. cbn [validate_field]. rewrite Hname. cbn. now left. }
    specialize (H Hf w). now rewrite E in H. }
  destruct (validate_model _ (RDict kvs) w) as [[inst|errs] w'].
  - destruct He.
  - now exists errs, w'.
Qed.

(** X5.  An error reported under an index of the menu was made by the menu
    item at that index, validated as an [ItemBase] at that location: an item
    that is valid is never reported. *)
Theorem X5_menu_errors_belong_to_their_item cls kvs xs w e j rest :
  In cls location_classes ->
  lookup "menu" kvs = Some (RList xs) ->
  In e (errors_of (fst (validate_model cls (RDict kvs) w))) ->
  err_loc e = LKey "menu" :: LIdx j :: rest ->
  exists x w1,
    nth_error xs j = Some x /\
    In e (errors_of (fst (validate uuid_of_str datetime_of_str ItemBase
                            [LKey "menu"; LIdx j] x w1))).
Proof.
  intros Hcls Hmenu He Hloc.
  destruct (Location_menu _ Hcls)
    as (c & f1 & ann & d & tl & -> & Hann & N & Ntl).
  destruct (errors_about _ _ _ _ _ _ "menu" e He) as (f & u & Hin & Hf & Herr).
  { now exists (LIdx j :: rest). }
  assert (Ef : f = Field "menu" ann d).
  { destruct Hin as [<-|[<-|Hin]]; [now destruct N | reflexivity |].
    destruct Ntl. rewrite <- Hf. now apply in_map. }
  subst f. cbn [validate_field] in Herr.
  rewrite Hmenu, Hann, validate_TList in Herr.
  pose proof (validate_items_errors_item
                (validate uuid_of_str datetime_of_str ItemBase)
                ([] ++ [LKey "menu"]) xs 0 u e) as Hitem.
  destruct (validate_items _ _ 0 xs u) as [rs w2]. cbn [fst] in *.
  rewrite errors_of_map_result in Herr.
  destruct (Hitem Herr) as (i & x & w1 & Hnth & Hx).
  pose proof (validate_reports_below _ _ _ _ _ _ _ Hx) as [tl' E].
  cbn [app Nat.add] in E, Hx. rewrite Hloc in E. injection E as <- _.
  now exists x, w1.
Qed.

(** Validating against a plain annotation leaves the world as it is. *)
Lemma plain_items_world (v : validator) :
  (forall loc x w, snd (v loc x w) = w) ->
  forall xs loc i w, snd (validate_items v loc i xs w) = w.
Proof.
  intros Hv. induction xs as [|x xs IH]; intros loc i w; [reflexivity|].
  cbn [validate_items]. pose proof (Hv (loc ++ [LIdx i]) x w) as H1.
  destruct (v (loc ++ [LIdx i]) x w) as [r w1]. cbn in H1. subst w1.
  specialize (IH loc (S i) w).
  destruct (validate_items v loc (S i) xs w) as [rs w2]. exact IH.
Qed.

Lemma plain_world a :
  plain a = true ->
  forall loc x w, snd (validate uuid_of_str datetime_of_str a loc x w) = w.
Proof.
  induction a as [| | |item IH|inner IH|cls fs _]
    using annotation_nested_ind; cbn [plain]; intros Hp loc x w;
    try reflexivity; try discriminate Hp.
  - destruct x; try reflexivity. rewrite validate_TList.
    pose proof (plain_items_world _ (IH Hp) xs loc 0 w) as H.
    destruct (validate_items _ loc 0 xs w) as [r w']. exact H.
  - destruct x; try reflexivity; cbn [validate]; now apply IH.
Qed.

Lemma default_value_world loc whole loc' whole' d w :
  snd (default_value loc whole d w) = snd (default_value loc' whole' d w).
Proof.
  destruct d as [|v|f]; cbn; try reflexivity.
  all: now destruct (call_factory f w).
Qed.

(** The world after the field loop of a model with plain fields. *)
Lemma plain_fields_world kvs loc fs :
  forallb (fun f => plain (field_annotation f)) fs = true ->
  forall w,
    snd (validate_fields uuid_of_str datetime_of_str kvs loc fs w)
    = after_defaults kvs fs w.
Proof.
  unfold after_defaults.
  induction fs as [|[name ann dflt] rest IH]; intros Hp w; [reflexivity|].
  cbn [forallb field_annotation] in Hp. apply andb_prop in Hp.
  destruct Hp as [Hann Hrest].
  cbn [validate_fields validate_field fold_left field_name field_default].
  assert (Hstep : snd match lookup name kvs with
                      | Some x' => validate uuid_of_str datetime_of_str ann
                                     (loc ++ [LKey name]) x' w
                      | None => default_value (loc ++ [LKey name])
                                  (RDict kvs) dflt w
                      end
                  = match lookup name kvs with
                    | Some _ => w
                    | None => snd (default_value [] RNone dflt w)
                    end).
  { destruct (lookup name kvs);
      [now apply plain_world | apply default_value_world]. }
  destruct (match lookup name kvs with
            | Some x' => validate _ _ _ _ _ _
            | None => _
            end) as [r1 w1].
  cbn [snd] in Hstep. subst w1. rewrite <- (IH Hrest).
  now destruct (validate_fields _ _ kvs loc rest _).
Qed.

Lemma plain_model_world c fs loc kvs w :
  forallb (fun f => plain (field_annotation f)) fs = true ->
  snd (validate uuid_of_str datetime_of_str (TModel c fs) loc (RDict kvs) w)
  = after_defaults kvs fs w.
Proof.
  intros Hp. rewrite validate_TModel, <- (plain_fields_world kvs loc fs Hp w).
  now destruct (validate_fields _ _ kvs loc fs w).
Qed.

(** X6.  Validating an Item payload calls each default factory once for
    each key it stands in for, and does nothing else to its surroundings,
    whether the payload is accepted or not: Base and Create draw one
    identifier when [id] is absent; Update draws and reads nothing; Read
    also reads the clock once for each timestamp that is absent. *)
Theorem X6_item_factories_run_once_per_absent_key kvs w :
  let w1 := match lookup "id" kvs with
            | Some _ => w
            | None => snd (uuid4 w)
            end in
  let w2 := match lookup "created_at" kvs with
            | Some _ => w1
            | None => snd (utcnow w1)
            end in
  let w3 := match lookup "updated_at" kvs with
            | Some _ => w2
            | None => snd (utcnow w2)
            end in
  snd (validate_model ItemBase (RDict kvs) w) = w1 /\
  snd (validate_model ItemCreate (RDict kvs) w) = w1 /\
  snd (validate_model ItemUpdate (RDict kvs) w) = w /\
  snd (validate_model ItemRead (RDict kvs) w) = w3.
Proof.
  unfold model_validate. rewrite ItemCreate_fields, ItemRead_fields.
  unfold ItemBase, ItemUpdate.
  rewrite !plain_model_world by reflexivity.
  unfold after_defaults.
  cbn [model_fields app fold_left field_name field_default].
  destruct (lookup "id" kvs), (lookup "name" kvs),
    (lookup "ingredients" kvs), (lookup "created_at" kvs),
    (lookup "updated_at" kvs); repeat split; reflexivity.
Qed.

(** A menu item accepted without an [id] gets the next identifier of the
    generator, and uses up that one draw. *)
Lemma ItemBase_fresh loc item w v w' :
  lookup "id" item = None ->
  validate uuid_of_str datetime_of_str ItemBase loc (RDict item) w
  = (Ok v, w') ->
  getattr v "id" = Some (VUuid (rng w (drawn w))) /\
  rng w' = rng w /\ drawn w' = S (drawn w).
Proof.
  intros Hid H.
  pose proof (plain_model_world "ItemBase" (model_fields ItemBase) loc item w
                eq_refl) as Hw.
  change (TModel "ItemBase" (model_fields ItemBase)) with ItemBase in Hw.
  rewrite H in Hw. cbn [snd] in Hw. subst w'.
  unfold ItemBase in H. apply validate_TModel_dict_ok in H.
  destruct H as (attrs & -> & H).
  apply validate_fields_cons_ok in H.
  destruct H as (vid & w1 & ? & Hf & _ & ->).
  cbn [validate_field] in Hf. rewrite Hid in Hf. cbn in Hf.
  injection Hf as <- _.
  unfold after_defaults.
  cbn [model_fields ItemBase fold_left field_name field_default].
  rewrite Hid.
  destruct (lookup "name" item), (lookup "ingredients" item);
    repeat split; reflexivity.
Qed.

Lemma items_fresh xs :
  Forall (fun x => exists item, x = RDict item /\ lookup "id" item = None)
    xs ->
  forall loc i0 w vs w',
    validate_items (validate uuid_of_str datetime_of_str ItemBase) loc i0 xs w
    = (Ok vs, w') ->
    forall i v, nth_error vs i = Some v ->
                getattr v "id" = Some (VUuid (rng w (drawn w + i))).
Proof.
  induction 1 as [|x xs (item & -> & Hid) _ IH]; intros loc i0 w vs w';
    cbn [validate_items].
  - intros H. inversion H. intros [|i] v; discriminate.
  - destruct (validate _ _ ItemBase (loc ++ [LIdx i0]) (RDict item) w)
      as [r w1] eqn:E1.
    destruct (validate_items _ loc (S i0) xs w1) as [rs w2] eqn:E2.
    intros H. injection H as H <-. apply both_ok in H.
    destruct H as (v0 & vs' & -> & -> & ->).
    destruct (ItemBase_fresh _ _ _ _ _ Hid E1) as (Hv0 & Hr & Hd).
    intros [|i] v Hnth; cbn [nth_error] in Hnth.
    + injection Hnth as <-. now rewrite Nat.add_0_r.
    + rewrite (IH _ _ _ _ _ E2 i v Hnth), Hr, Hd.
      do 3 f_equal. lia.
Qed.

(** X7.  Menu items given without an [id] are numbered by consecutive
    draws of the generator, in menu order; if the generator never repeats
    itself, the items of a validated store have pairwise distinct ids. *)
Theorem X7_generated_menu_ids_are_distinct cls kvs xs w inst w' :
  In cls location_classes ->
  lookup "menu" kvs = Some (RList xs) ->
  Forall (fun x => exists item, x = RDict item /\ lookup "id" item = None)
    xs ->
  validate_model cls (RDict kvs) w = (Ok inst, w') ->
  exists vs first,
    getattr inst "menu" = Some (VList vs) /\
    drawn w <= first /\
    (forall i v, nth_error vs i = Some v ->
                 getattr v "id" = Some (VUuid (rng w (first + i)))) /\
    ((forall a b, rng w a = rng w b -> a = b) ->
     NoDup (map (fun v => getattr v "id") vs)).
Proof.
  intros Hcls Hmenu Hxs H.
  destruct (Location_menu _ Hcls)
    as (c & f1 & ann & d & rest & -> & Hann & N & _).
  unfold model_validate in H. apply validate_TModel_dict_ok in H.
  destruct H as (attrs & -> & H).
  apply validate_fields_cons_ok in H.
  destruct H as (v1 & w1 & ? & Hf1 & H & ->).
  apply validate_fields_cons_ok in H.
  destruct H as (vm & w2 & ? & Hm & _ & ->).
  apply validate_field_step in Hf1. destruct Hf1 as [(Hr & _ & Hd & _) _].
  cbn [validate_field] in Hm. rewrite Hmenu, Hann in Hm.
  apply validate_TList_ok in Hm.
  destruct Hm as (xs' & vs & E & -> & Hm). injection E as <-.
  pose proof (items_fresh xs Hxs _ _ _ _ _ Hm) as Hids.
  rewrite Hr in Hids.
  exists vs, (drawn w1). split; [|split; [exact Hd | split; [exact Hids|]]].
  - cbn [getattr lookup field_name].
    replace (String.eqb "menu" (field_name f1)) with false; [reflexivity|].
    symmetry. apply String.eqb_neq. congruence.
  - intros Hinj. apply NoDup_nth_error. intros i j Hi Hij.
    rewrite length_map in Hi. rewrite !nth_error_map in Hij.
    destruct (nth_error vs i) as [vi|] eqn:Ei;
      [|apply nth_error_None in Ei; lia].
    destruct (nth_error vs j) as [vj|] eqn:Ej; [|discriminate Hij].
    cbn in Hij. rewrite (Hids _ _ Ei), (Hids _ _ Ej) in Hij.
    injection Hij as Hij. apply Hinj in Hij. lia.
Qed.

(** *** Dumping and validating again *)

Local Abbreviation stable_here := (stable uuid_of_str datetime_of_str).

Lemma model_dump_VModel c attrs :
  model_dump (VModel c attrs)
  = RDict (map (fun kv => (fst kv, model_dump (snd kv))) attrs).
Proof.
  cbn [model_dump]. f_equal.
  induction attrs as [|[k v] rest IH]; [reflexivity|].
  cbn [map fst snd]. now rewrite <- IH.
Qed.

Lemma lookup_dump k attrs :
  lookup k (map (fun kv => (fst kv, model_dump (snd kv))) attrs)
  = option_map model_dump (lookup k attrs).
Proof.
  induction attrs as [|[k' v] rest IH]; [reflexivity|].
  cbn [map lookup fst snd]. now destruct (String.eqb k k').
Qed.

Lemma lookup_first {A} k (v : A) rest kvs :
  ~ In k (map fst kvs) -> lookup k (kvs ++ (k, v) :: rest) = Some v.
Proof.
  induction kvs as [|[k' v'] kvs IH]; cbn [app lookup map fst In]; intros H.
  - now rewrite String.eqb_refl.
  - replace (String.eqb k k') with false.
    + apply IH. tauto.
    + symmetry. apply String.eqb_neq. intros ->. tauto.
Qed.

Lemma stable_items item vs :
  Forall (stable_here item) vs ->
  forall loc i u,
    validate_items (validate uuid_of_str datetime_of_str item) loc i
      (map model_dump vs) u = (Ok vs, u).
Proof.
  induction 1 as [|v vs Hv _ IH]; intros loc i u; [reflexivity|].
  cbn [map validate_items]. rewrite Hv, IH. reflexivity.
Qed.

Lemma stable_default a d loc whole w v w' :
  default_fits a d = true ->
  default_value loc whole d w = (Ok v, w') ->
  stable_here a v.
Proof.
  destruct d as [|dv|[| |]]; cbn [default_value call_factory uuid4 utcnow];
    intros Hfit H; inversion H; subst; clear H.
  - destruct v; try discriminate Hfit.
    destruct a; try discriminate Hfit. intros loc' u. reflexivity.
  - destruct a as [| | |item|[| | |item| |]|]; try discriminate Hfit;
      intros loc' u; reflexivity.
  - destruct a; try discriminate Hfit. intros loc' u. reflexivity.
  - destruct a; try discriminate Hfit. intros loc' u. reflexivity.
Qed.

(** The field loop, run again on the dump of what it produced. *)
Lemma stable_fields fs attrs :
  Forall2 (fun f kv => fst kv = field_name f /\
                       stable_here (field_annotation f) (snd kv)) fs attrs ->
  forall done,
    ~ (exists k, In k (map fst done) /\ In k (map field_name fs)) ->
    NoDup (map field_name fs) ->
    forall loc u,
      validate_fields uuid_of_str datetime_of_str
        (map (fun kv => (fst kv, model_dump (snd kv))) (done ++ attrs))
        loc fs u = (Ok attrs, u).
Proof.
  induction 1 as [|[name ann dflt] [k v] fs attrs (Hk & Hv) _ IH];
    intros done Hdone Hnd loc u; [reflexivity|].
  cbn [fst snd field_name field_annotation] in Hk, Hv. subst k.
  cbn [validate_fields validate_field field_name].
  rewrite lookup_dump, lookup_first.
  - cbn [option_map]. rewrite Hv.
    replace (done ++ (name, v) :: attrs) with ((done ++ [(name, v)]) ++ attrs)
      by now rewrite <- app_assoc.
    rewrite IH; [reflexivity| |now inversion Hnd].
    intros (k & Hk1 & Hk2). rewrite map_app, in_app_iff in Hk1.
    destruct Hk1 as [Hk1|[<-|[]]].
    + apply Hdone. exists k. split; [exact Hk1 | now right].
    + inversion Hnd. tauto.
  - intros Hin. apply Hdone. exists name. split; [exact Hin | now left].
Qed.

Lemma coherent_fields cls fs :
  coherent (TModel cls fs) = true ->
  NoDup (map field_name fs) /\
  Forall (fun f => default_fits (field_annotation f) (field_default f) = true
                   /\ coherent (field_annotation f) = true) fs.
Proof.
  cbn [coherent]. induction fs as [|[name ann dflt] rest IH]; intros H.
  - split; constructor.
  - apply andb_prop in H. destruct H as [H Hrest].
    apply andb_prop in H. destruct H as [H Hname].
    apply andb_prop in H. destruct H as [Hfit Hann].
    destruct (IH Hrest) as [Hnd Hall]. split.
    + cbn [map field_name]. constructor; [|exact Hnd].
      intros Hin. apply negb_true_iff in Hname.
      assert (E : existsb (String.eqb name) (map field_name rest) = true).
      { apply existsb_exists. exists name. split; [exact Hin|].
        apply String.eqb_refl. }
      congruence.
    + constructor; [now split | exact Hall].
Qed.

(** Whatever a coherent class accepts validates, once dumped, to itself. *)
Lemma coherent_stable a :
  coherent a = true ->
  forall loc x w v w',
    validate uuid_of_str datetime_of_str a loc x w = (Ok v, w') ->
    stable_here a v.
Proof.
  induction a as [| | |item IH|inner IH|cls fs IH]
    using annotation_nested_ind; intros Hc loc x w v w' H.
  - rewrite validate_TStr in H. injection H as H _.
    apply validate_str_ok in H. destruct H as (s & _ & ->).
    intros loc' u. reflexivity.
  - rewrite validate_TUUID in H. injection H as H _.
    apply validate_uuid_ok in H. destruct H as (i & -> & _).
    intros loc' u. reflexivity.
  - rewrite validate_TDatetime in H. injection H as H _.
    apply validate_datetime_ok in H. destruct H as (t & -> & _).
    intros loc' u. reflexivity.
  - apply validate_TList_ok in H. destruct H as (xs & vs & -> & -> & H).
    apply validate_items_ok in H.
    assert (Hvs : Forall (stable_here item) vs).
    { clear - H IH Hc. induction H as [|x y xs vs (i & w1 & w2 & Hy) _ IHf];
        constructor; [|exact IHf].
      eapply IH; [exact Hc | exact Hy]. }
    intros loc' u.
    change (model_dump (VList vs)) with (RList (map model_dump vs)).
    rewrite validate_TList, (stable_items _ _ Hvs). reflexivity.
  - destruct x; cbn [validate] in H;
      try (specialize (IH Hc _ _ _ _ _ H);
           intros loc' world; specialize (IH loc' world);
           destruct v; [reflexivity | exact IH ..]).
    injection H as <- _. intros loc' world. reflexivity.
  - apply validate_TModel_ok in H. destruct H as (kvs & attrs & -> & -> & H).
    destruct (coherent_fields _ _ Hc) as [Hnd Hall].
    assert (Hst : Forall2 (fun f kv =>
                             fst kv = field_name f /\
                             stable_here (field_annotation f) (snd kv))
                  fs attrs).
    { clear Hnd Hc. revert w attrs H.
      induction fs as [|[name ann dflt] rest IHfs]; intros w attrs H.
      - apply validate_fields_nil_ok in H. destruct H as [-> _]. constructor.
      - apply validate_fields_cons_ok in H.
        destruct H as (v & w1 & attrs' & Hf & H & ->).
        inversion_clear IH as [|? ? IHann IHrest].
        inversion_clear Hall as [|? ? [Hfit Hcoh] Hall'].
        cbn [field_annotation field_default field_name] in *.
        constructor; [|eapply IHfs; eassumption].
        split; [reflexivity|]. cbn [snd validate_field] in *.
        destruct (lookup name kvs) as [x'|].
        + eapply IHann; eassumption.
        + eapply stable_default; eassumption. }
    intros loc' u. rewrite model_dump_VModel, validate_TModel.
    rewrite (stable_fields fs attrs Hst []) by (cbn; firstorder).
    reflexivity.
Qed.

(** X8.  Dumping a validated instance and validating the dump gives the
    instance back, without drawing an identifier or reading the clock, for
    each of the four Item classes: a dump carries every field, so no default
    is taken again. *)
Theorem X8_dump_then_validate_is_the_identity cls x w inst w' :
  In cls item_classes ->
  validate_model cls x w = (Ok inst, w') ->
  forall u, validate_model cls (model_dump inst) u = (Ok inst, u).
Proof.
  intros Hcls H u. unfold model_validate in *.
  eapply coherent_stable; [|exact H].
  cbn in Hcls. repeat (destruct Hcls as [<-|Hcls]; [reflexivity|]).
  destruct Hcls.
Qed.

(** X9.  A store validated without an [address] does not survive its own
    dump: the dump holds the empty list under [address], and validating it
    against the same class fails with a [model_type] error there. *)
Theorem X9_store_without_address_is_rejected_once_dumped cls kvs w inst w' u :
  In cls [McDonaldsBase; McDonaldsCreate; McDonaldsRead] ->
  lookup "address" kvs = None ->
  validate_model cls (RDict kvs) w = (Ok inst, w') ->
  exists errs u',
    validate_model cls (model_dump inst) u = (Err errs, u') /\
    In (mkError "model_type" [LKey "address"] (RList [])) errs.
Proof.
  intros Hcls Habsent H.
  assert (Hshape : exists c rest,
             cls = TModel c (Field "address" AddressBase
                               (DefaultFactory F_list) :: rest)).
  { destruct Hcls as [<-|[<-|[<-|[]]]]; eexists _, _; reflexivity. }
  destruct Hshape as (c & rest & ->).
  unfold model_validate in H. apply validate_TModel_dict_ok in H.
  destruct H as (attrs & -> & H).
  apply validate_fields_cons_ok in H.
  destruct H as (va & w1 & attrs' & Hf & _ & ->).
  cbn [validate_field] in Hf. rewrite Habsent in Hf. cbn in Hf.
  injection Hf as <- _.
  set (e := mkError "model_type" [LKey "address"] (RList [])).
  assert (He : In e (errors_of (fst (validate_model
                       (TModel c (Field "address" AddressBase
                                    (DefaultFactory F_list) :: rest))
                       (model_dump
                          (VModel c ((field_name
                                        (Field "address" AddressBase
                                           (DefaultFactory F_list)),
                                      VList []) :: attrs'))) u)))).
  { unfold model_validate. rewrite model_dump_VModel, validate_TModel.
    pose proof (validate_fields_errors_intro uuid_of_str datetime_of_str
                  (map (fun kv => (fst kv, model_dump (snd kv)))
                     ((field_name (Field "address" AddressBase
                                     (DefaultFactory F_list)), VList [])
                        :: attrs'))
                  [] (Field "address" AddressBase (DefaultFactory F_list)
                        :: rest)
                  (Field "address" AddressBase (DefaultFactory F_list))
                  e (or_introl eq_refl)) as Hi.
    destruct (validate_fields _ _ _ [] _ u) as [r u'] eqn:E.
    cbn [fst]. rewrite errors_of_map_result.
    specialize (fun P => Hi P u). rewrite E in Hi. apply Hi.
    intros w2. cbn. now left. }
  destruct (validate_model _ (model_dump _) u) as [[inst'|errs] u'].
  - destruct He.
  - now exists errs, u'.
Qed.

(** X10.  Both Update classes accept an explicit null for each of their
    fields: a null raises no error about the field, and the validated
    instance holds [None] there. *)
Theorem X10_update_fields_accept_null cls k kvs w :
  In cls [ItemUpdate; McDonaldsUpdate] ->
  In k (field_names cls) ->
  lookup k kvs = Some RNone ->
  (forall e, In e (errors_of (fst (validate_model cls (RDict kvs) w))) ->
             ~ about k e) /\
  (forall inst w',
      validate_model cls (RDict kvs) w = (Ok inst, w') ->
      getattr inst k = Some VNone).
Proof.
  intros Hcls Hk Hnull. split.
  - intros e He Hab.
    assert (Hm : exists c, cls = TModel c (model_fields cls)).
    { destruct Hcls as [<-|[<-|[]]]; eexists; reflexivity. }
    destruct Hm as [c E]. rewrite E in He.
    destruct (errors_about _ _ _ _ _ _ _ _ He Hab) as (f & u & Hin & Hf & Herr).
    destruct f as [n a d]. cbn [field_name] in Hf. subst n.
    cbn [validate_field] in Herr. rewrite Hnull in Herr.
    destruct Hcls as [<-|[<-|[]]]; cbn in Hin;
      repeat (destruct Hin as [Hin|Hin];
              [injection Hin as <- <- <-; exact Herr|]);
      destruct Hin.
  - intros inst w' H.
    destruct Hcls as [<-|[<-|[]]]; cbn in Hk;
      destruct Hk as [<-|[<-|[]]]; fields_of H;
      cbn [validate_field] in Hf, Hf0; rewrite Hnull in *;
      cbn in Hf, Hf0.
    + injection Hf as <- _. reflexivity.
    + injection Hf0 as <- _. reflexivity.
    + injection Hf as <- _. reflexivity.
    + injection Hf0 as <- _. reflexivity.
Qed.

(** *** Which payloads are accepted *)

Lemma validate_uuid_accepts loc x :
  is_ok (validate_uuid uuid_of_str loc x) = true <->
  reads_as_uuid uuid_of_str x.
Proof.
  split.
  - destruct (validate_uuid uuid_of_str loc x) as [v|] eqn:E; [|discriminate].
    intros _. apply validate_uuid_ok in E. destruct E as (u & _ & [->|H]).
    + left. now exists u.
    + right. destruct H as (s & -> & H). now exists s, u.
  - intros [[u ->]|(s & u & -> & H)]; cbn; [reflexivity | now rewrite H].
Qed.

Lemma validate_items_str_accepts ss loc i w :
  validate_items (validate uuid_of_str datetime_of_str TStr) loc i
    (map RStr ss) w = (Ok (map VStr ss), w).
Proof.
  revert i. induction ss as [|s ss IH]; intros i; [reflexivity|].
  cbn [map validate_items]. rewrite validate_TStr, IH. reflexivity.
Qed.

Lemma validate_list_str_accepts loc x w :
  is_ok (fst (validate uuid_of_str datetime_of_str (TList TStr) loc x w))
  = true <-> list_of_text x.
Proof.
  split.
  - destruct (validate _ _ (TList TStr) loc x w) as [[v|] w'] eqn:E;
      [|discriminate].
    intros _. apply validate_TList_ok in E.
    destruct E as (xs & vs & -> & -> & E). apply validate_items_ok in E.
    clear - E. induction E as [|x y xs vs (i & w1 & w2 & Hy) _ [ss IH]].
    + now exists [].
    + rewrite validate_TStr in Hy. injection Hy as Hy _.
      apply validate_str_ok in Hy. destruct Hy as (s & -> & _).
      injection IH as ->. now exists (s :: ss).
  - intros [ss ->]. rewrite validate_TList, validate_items_str_accepts.
    reflexivity.
Qed.

(** X11.  The Create (and Base) payloads of an item that are accepted are
    exactly those with a text [name], with an [id] that is absent or reads
    as an identifier, and with [ingredients] that are absent or a list of
    texts. *)
Theorem X11_accepted_item_payloads cls kvs w :
  In cls [ItemBase; ItemCreate] ->
  is_ok (fst (validate_model cls (RDict kvs) w)) = true <->
  (forall x, lookup "id" kvs = Some x -> reads_as_uuid uuid_of_str x) /\
  (exists s, lookup "name" kvs = Some (RStr s)) /\
  (forall x, lookup "ingredients" kvs = Some x -> list_of_text x).
Proof.
  intros Hcls.
  assert (Hc : exists c, cls = TModel c (model_fields ItemBase)).
  { destruct Hcls as [<-|[<-|[]]]; eexists; reflexivity. }
  destruct Hc as [c ->]. clear Hcls. split.
  - destruct (validate_model _ (RDict kvs) w) as [[inst|] w'] eqn:H;
      [|discriminate].
    intros _. unfold model_validate in H.
    apply validate_TModel_dict_ok in H. destruct H as (attrs & -> & H).
    cbn [model_fields ItemBase] in H.
    apply validate_fields_cons_ok in H.
    destruct H as (vid & w1 & ? & Hid & H & ->).
    apply validate_fields_cons_ok in H.
    destruct H as (vname & w2 & ? & Hname & H & ->).
    apply validate_fields_cons_ok in H.
    destruct H as (ving & w3 & ? & Hing & _ & ->).
    cbn [validate_field] in Hid, Hname, Hing. split; [|split].
    + intros given Hx. rewrite Hx, validate_TUUID in Hid.
      injection Hid as Hid _. cbn [app] in Hid.
      apply (validate_uuid_accepts [LKey "id"]). now rewrite Hid.
    + destruct (lookup "name" kvs) as [y|]; [|discriminate Hname].
      rewrite validate_TStr in Hname. injection Hname as Hname _.
      apply validate_str_ok in Hname. destruct Hname as (s & -> & _).
      now exists s.
    + intros given Hx. rewrite Hx in Hing. cbn [app] in Hing.
      apply (validate_list_str_accepts [LKey "ingredients"] given w2).
      now rewrite Hing.
  - intros (Hid & [s Hname] & Hing).
    unfold model_validate. rewrite validate_TModel.
    cbn [model_fields ItemBase validate_fields validate_field field_name].
    rewrite Hname.
    assert (Eid : exists v w1,
               match lookup "id" kvs with
               | Some x' => validate uuid_of_str datetime_of_str TUUID
                              ([] ++ [LKey "id"]) x' w
               | None => default_value ([] ++ [LKey "id"]) (RDict kvs)
                           (DefaultFactory F_uuid4) w
               end = (Ok v, w1)).
    { destruct (lookup "id" kvs) as [x|]; [|eexists _, _; reflexivity].
      rewrite validate_TUUID.
      pose proof (proj2 (validate_uuid_accepts ([] ++ [LKey "id"]) x)
                    (Hid x eq_refl)) as Hok.
      destruct (validate_uuid uuid_of_str _ x); [|discriminate Hok].
      now eexists _, _. }
    destruct Eid as (vid & w1 & ->). rewrite validate_TStr.
    assert (Eing : exists v w2,
               match lookup "ingredients" kvs with
               | Some x' => validate uuid_of_str datetime_of_str (TList TStr)
                              ([] ++ [LKey "ingredients"]) x' w1
               | None => default_value ([] ++ [LKey "ingredients"])
                           (RDict kvs) (DefaultFactory F_list) w1
               end = (Ok v, w2)).
    { destruct (lookup "ingredients" kvs) as [x|];
        [|eexists _, _; reflexivity].
      pose proof (proj2 (validate_list_str_accepts
                           ([] ++ [LKey "ingredients"]) x w1)
                    (Hing x eq_refl)) as Hok.
      destruct (validate _ _ (TList TStr) _ x w1) as [[v|] w2];
        [|discriminate Hok].
      now eexists _, _. }
    destruct Eing as (ving & w2 & ->). reflexivity.
Qed.

(** X12.  The Update payloads of an item that are accepted are exactly
    those that hold the key [name], as text or as null, and whose
    [ingredients] are absent, null or a list of texts. *)
Theorem X12_accepted_item_updates kvs w :
  is_ok (fst (validate_model ItemUpdate (RDict kvs) w)) = true <->
  (exists x, lookup "name" kvs = Some x /\ (x = RNone \/ exists s, x = RStr s))
  /\
  (forall x, lookup "ingredients" kvs = Some x -> x = RNone \/ list_of_text x).
Proof.
  split.
  - destruct (validate_model _ (RDict kvs) w) as [[inst|] w'] eqn:H;
      [|discriminate].
    intros _. fields_of H. cbn [validate_field] in Hf, Hf0. split.
    + destruct (lookup "name" kvs) as [y|]; [|discriminate Hf].
      exists y. split; [reflexivity|].
      destruct y; cbn in Hf; try discriminate Hf; [now left|].
      right. now exists s.
    + intros given Hx. rewrite Hx in Hf0.
      destruct given as [| | | |xs|];
        try (cbn in Hf0; discriminate Hf0); [now left|].
      right.
      match type of Hf0 with
      | _ = ?rhs =>
          change (validate uuid_of_str datetime_of_str (TList TStr)
                    ([] ++ [LKey "ingredients"]) (RList xs) w0 = rhs) in Hf0
      end.
      apply (validate_list_str_accepts ([] ++ [LKey "ingredients"])
               (RList xs) w0).
      now rewrite Hf0.
  - intros ((x & Hname & Hx) & Hing). into_fields. rewrite Hname.
    assert (En : exists v,
               validate uuid_of_str datetime_of_str (TOptional TStr)
                 [LKey "name"] x w = (Ok v, w)).
    { destruct Hx as [->|[s ->]]; eexists; reflexivity. }
    destruct En as [vn ->].
    assert (Eing : exists v w2,
               match lookup "ingredients" kvs with
               | Some x' => validate uuid_of_str datetime_of_str
                              (TOptional (TList TStr))
                              [LKey "ingredients"] x' w
               | None => default_value [LKey "ingredients"]
                           (RDict kvs) (DefaultFactory F_list) w
               end = (Ok v, w2)).
    { destruct (lookup "ingredients" kvs) as [y|];
        [|eexists _, _; reflexivity].
      destruct (Hing y eq_refl) as [->|[ss ->]]; [eexists _, _; reflexivity|].
      change (validate uuid_of_str datetime_of_str (TOptional (TList TStr))
                [LKey "ingredients"] (RList (map RStr ss)) w)
        with (validate uuid_of_str datetime_of_str (TList TStr)
                [LKey "ingredients"] (RList (map RStr ss)) w).
      rewrite validate_TList, validate_items_str_accepts.
      eexists _, _; reflexivity. }
    destruct Eing as (ving & w2 & ->). reflexivity.
Qed.

End MoreProperties.

(** ** Timestamps of the Read classes *)

Section Timestamps.

Import Item Address McDonalds.

Variable uuid_of_str : string -> option UUID.
Variable datetime_of_str : string -> option datetime.

Local Abbreviation validate_model :=
  (model_validate uuid_of_str datetime_of_str).

(** A field reads the payload at its own name only. *)
Lemma field_reads_its_key kvs kvs' loc f w :
  lookup (field_name f) kvs = lookup (field_name f) kvs' ->
  instance_of (fst (validate_field uuid_of_str datetime_of_str kvs loc f w))
  = instance_of (fst (validate_field uuid_of_str datetime_of_str kvs' loc f w))
  /\
  snd (validate_field uuid_of_str datetime_of_str kvs loc f w)
  = snd (validate_field uuid_of_str datetime_of_str kvs' loc f w).
Proof.
  destruct f as [name ann dflt]. cbn [field_name validate_field].
  intros <-. destruct (lookup name kvs); [now split|].
  destruct dflt as [|d|g]; cbn; try destruct (call_factory g w); now split.
Qed.

(** The field loop succeeds when each field does, one after the other. *)
Lemma is_ok_fields_cons kvs loc f rest w :
  is_ok (fst (validate_fields uuid_of_str datetime_of_str kvs loc
                (f :: rest) w))
  = is_ok (fst (validate_field uuid_of_str datetime_of_str kvs loc f w))
    && is_ok (fst (validate_fields uuid_of_str datetime_of_str kvs loc rest
                     (snd (validate_field uuid_of_str datetime_of_str
                             kvs loc f w)))).
Proof.
  cbn [validate_fields].
  destruct (validate_field _ _ kvs loc f w) as [r1 w1]. cbn [fst snd].
  destruct (validate_fields _ _ kvs loc rest w1) as [rs w2]. cbn [fst].
  now destruct r1, rs.
Qed.

Lemma is_ok_instance_of {A} (r r' : result A) :
  instance_of r = instance_of r' -> is_ok r = is_ok r'.
Proof. destruct r, r'; cbn; congruence. Qed.

(** A timestamp field accepts a key that is absent or given as a
    timestamp. *)
Lemma timestamp_field_accepts kvs loc k w :
  (forall x, lookup k kvs = Some x ->
             exists t, given_as datetime_of_str x t) ->
  is_ok (fst (validate_field uuid_of_str datetime_of_str kvs loc
                (Field k TDatetime (DefaultFactory F_utcnow)) w)) = true.
Proof.
  intros H. cbn [validate_field]. destruct (lookup k kvs) as [x|].
  - destruct (H x eq_refl) as [t [->|(s & -> & Hs)]]; cbn;
      [reflexivity | now rewrite Hs].
  - reflexivity.
Qed.

(** C8, as amended.  Validation never compares the two timestamps.  When
    the payload leaves both out and the clock does not run backwards, the
    instance has [created_at <= updated_at].  A timestamp the payload
    gives, as an object or as text, one key or both, is carried as given:
    the instance holds the instant given, or the one the text reads as.
    And whether a payload is accepted depends on each timestamp by itself:
    a payload stays accepted when its timestamps are replaced by any that
    are absent or given as timestamps, in whatever order they lie. *)
Theorem C8_timestamps_are_ordered_only_by_the_clock cls kvs w :
  In cls [ItemRead; McDonaldsRead] ->
  (forall inst w',
      validate_model cls (RDict kvs) w = (Ok inst, w') ->
      (forall n, (clock w n <= clock w (S n))%Z) ->
      lookup "created_at" kvs = None ->
      lookup "updated_at" kvs = None ->
      exists created updated,
        getattr inst "created_at" = Some (VDatetime created) /\
        getattr inst "updated_at" = Some (VDatetime updated) /\
        (created <= updated)%Z) /\
  (forall inst w' k x,
      validate_model cls (RDict kvs) w = (Ok inst, w') ->
      k = "created_at" \/ k = "updated_at" ->
      lookup k kvs = Some x ->
      exists t,
        getattr inst k = Some (VDatetime t) /\ given_as datetime_of_str x t) /\
  (forall kvs',
      is_ok (fst (validate_model cls (RDict kvs) w)) = true ->
      (forall k, In k (field_names cls) ->
                 k <> "created_at" -> k <> "updated_at" ->
                 lookup k kvs' = lookup k kvs) ->
      (forall k x, k = "created_at" \/ k = "updated_at" ->
                   lookup k kvs' = Some x ->
                   exists t, given_as datetime_of_str x t) ->
      is_ok (fst (validate_model cls (RDict kvs') w)) = true).
Proof.
  intros Hcls. split; [|split].
  - intros inst w' H Hclock Ac Au.
    destruct (Read_timestamps _ _ _ _ _ _ _ Hcls H)
      as (created & updated & Gc & Gu & Hc & Hu).
    rewrite Ac in Hc, Hu. rewrite Au in Hu.
    exists created, updated. subst created updated. repeat split; auto.
  - intros inst w' k x H Hk Hx.
    destruct (Read_timestamps _ _ _ _ _ _ _ Hcls H)
      as (created & updated & Gc & Gu & Hc & Hu).
    destruct Hk as [->| ->].
    + rewrite Hx in Hc. exists created. split; [exact Gc|].
      apply validate_datetime_ok in Hc.
      destruct Hc as (t & E & [->|(s & -> & Hs)]); injection E as ->;
        [now left | right; now exists s].
    + rewrite Hx in Hu. exists updated. split; [exact Gu|].
      apply validate_datetime_ok in Hu.
      destruct Hu as (t & E & [->|(s & -> & Hs)]); injection E as ->;
        [now left | right; now exists s].
  - intros kvs' Hok Hsame Hgiven.
    destruct (Read_shape _ Hcls) as (c & f1 & f2 & f3 & -> & Hpre).
    inversion_clear Hpre as [|? ? (_ & C1 & U1) Hpre'].
    inversion_clear Hpre' as [|? ? (_ & C2 & U2) Hpre].
    inversion_clear Hpre as [|? ? (_ & C3 & U3) _].
    unfold field_names in Hsame. cbn [model_fields map field_name] in Hsame.
    unfold model_validate in *. rewrite validate_TModel in *.
    assert (Hloop : is_ok (fst (validate_fields uuid_of_str datetime_of_str
                                  kvs []
                                  [f1; f2; f3;
                                   Field "created_at" TDatetime
                                     (DefaultFactory F_utcnow);
                                   Field "updated_at" TDatetime
                                     (DefaultFactory F_utcnow)] w)) = true).
    { destruct (validate_fields _ _ kvs [] _ w) as [[attrs|errs] u];
        [reflexivity | discriminate Hok]. }
    clear Hok.
    assert (Hgoal : is_ok (fst (validate_fields uuid_of_str datetime_of_str
                                  kvs' []
                                  [f1; f2; f3;
                                   Field "created_at" TDatetime
                                     (DefaultFactory F_utcnow);
                                   Field "updated_at" TDatetime
                                     (DefaultFactory F_utcnow)] w)) = true).
    { rewrite !is_ok_fields_cons in Hloop |- *.
      apply andb_prop in Hloop. destruct Hloop as [H1 Hloop].
      apply andb_prop in Hloop. destruct Hloop as [H2 Hloop].
      apply andb_prop in Hloop. destruct Hloop as [H3 _].
      destruct (field_reads_its_key kvs' kvs [] f1 w) as [I1 W1];
        [apply Hsame; cbn; tauto|].
      rewrite (is_ok_instance_of _ _ I1), H1, W1. cbn [andb].
      set (w1 := snd (validate_field _ _ kvs [] f1 w)) in *.
      destruct (field_reads_its_key kvs' kvs [] f2 w1) as [I2 W2];
        [apply Hsame; cbn; tauto|].
      rewrite (is_ok_instance_of _ _ I2), H2, W2. cbn [andb].
      set (w2 := snd (validate_field _ _ kvs [] f2 w1)) in *.
      destruct (field_reads_its_key kvs' kvs [] f3 w2) as [I3 W3];
        [apply Hsame; cbn; tauto|].
      rewrite (is_ok_instance_of _ _ I3), H3, W3. cbn [andb].
      rewrite !timestamp_field_accepts; [reflexivity| |].
      all: intros given Hx;
        first [ exact (Hgiven _ _ (or_introl eq_refl) Hx)
              | exact (Hgiven _ _ (or_intror eq_refl) Hx) ]. }
    destruct (validate_fields _ _ kvs' [] _ w) as [[attrs|errs] u];
      [reflexivity | discriminate Hgoal].
Qed.

End Timestamps.

(** ** The further properties on the source's examples *)

Section MoreOnExamples.

Import Item Address McDonalds Examples.

Local Abbreviation U := Lexical.uuid_of_string.
Local Abbreviation D := Lexical.datetime_of_string.

(** On the example item: without timestamps the two clock readings are in
    order; with the timestamps of [backwards] the instance holds what the
    text of [created_at] reads as; and [backwards] is accepted because the
    same payload with its timestamps exchanged is. *)
Lemma C8_witness :
  (exists created updated,
      attr (run ItemRead name_only w0) "created_at"
      = Some (VDatetime created) /\
      attr (run ItemRead name_only w0) "updated_at"
      = Some (VDatetime updated) /\
      (created <= updated)%Z) /\
  (exists t,
      attr (run ItemRead backwards w0) "created_at" = Some (VDatetime t) /\
      given_as D (RStr "2025-01-16T12:00:00Z") t) /\
  is_ok (fst (run ItemRead backwards w0)) = true.
Proof.
  split; [|split].
  - destruct (C8_timestamps_are_ordered_only_by_the_clock U D ItemRead
                [("name", RStr "Big Mac")] w0 (or_introl eq_refl))
      as (H & _ & _).
    apply (H _ _ eq_refl); [|reflexivity|reflexivity].
    intros n. cbn [clock w0]. lia.
  - destruct (C8_timestamps_are_ordered_only_by_the_clock U D ItemRead
                [("name", RStr "Big Mac");
                 ("created_at", RStr "2025-01-16T12:00:00Z");
                 ("updated_at", RStr "2025-01-15T10:20:30Z")] w0
                (or_introl eq_refl)) as (_ & H & _).
    exact (H _ _ "created_at" _ eq_refl (or_introl eq_refl) eq_refl).
  - destruct (C8_timestamps_are_ordered_only_by_the_clock U D ItemRead
                [("name", RStr "Big Mac");
                 ("created_at", RStr "2025-01-15T10:20:30Z");
                 ("updated_at", RStr "2025-01-16T12:00:00Z")] w0
                (or_introl eq_refl)) as (_ & _ & H).
    apply (H [("name", RStr "Big Mac");
              ("created_at", RStr "2025-01-16T12:00:00Z");
              ("updated_at", RStr "2025-01-15T10:20:30Z")]).
    + reflexivity.
    + intros k [<-|[<-|[<-|[<-|[<-|[]]]]]] Hc Hu;
        first [reflexivity | now destruct Hc | now destruct Hu].
    + intros k x [->| ->] Hx; injection Hx as <-;
        eexists; right; eexists; split; reflexivity.
Defined.

(** The example of [ItemUpdate.model_config] carries an [id]; the class has
    no such field, and the payload validates as it does without it. *)
Lemma X1_witness :
  instance_of (fst (run ItemUpdate big_mac w0))
  = instance_of
      (fst (run ItemUpdate
              (RDict [("name", RStr "Big Mac");
                      ("ingredients", RList (map RStr big_mac_ingredients))])
              w0)) /\
  snd (run ItemUpdate big_mac w0)
  = snd (run ItemUpdate
           (RDict [("name", RStr "Big Mac");
                   ("ingredients", RList (map RStr big_mac_ingredients))])
           w0).
Proof.
  apply (X1_only_declared_keys_are_read U D ItemUpdate
           [("id", RStr "550e8400-e29b-41d4-a716-446655440000");
            ("name", RStr "Big Mac");
            ("ingredients", RList (map RStr big_mac_ingredients))]
           [("name", RStr "Big Mac");
            ("ingredients", RList (map RStr big_mac_ingredients))] w0).
  - cbn. tauto.
  - intros k [<-|[<-|[]]]; reflexivity.
Defined.

(** The one error of the empty Create payload is under [name]. *)
Lemma X2_witness :
  exists k,
    In k (field_names ItemCreate) /\
    about k (mkError "missing" [LKey "name"] (RDict [])).
Proof.
  apply (X2_errors_name_a_declared_field U D ItemCreate [] w0).
  - cbn. tauto.
  - left. reflexivity.
Defined.

(** The menu of the example store comes out as one [ItemBase]. *)
Lemma X3_witness :
  exists vs,
    attr (run McDonaldsRead store w0) "menu" = Some (VList vs) /\
    Forall2 (fun x v =>
               exists item s,
                 x = RDict item /\
                 lookup "name" item = Some (RStr s) /\
                 getattr v "name" = Some (VStr s) /\
                 attribute_names v = ["id"; "name"; "ingredients"])
      [ RDict [ ("name", RStr "Big Mac");
                ("ingredients", RList (map RStr big_mac_ingredients)) ] ]
      vs.
Proof.
  exact (X3_menu_keeps_its_items_in_order U D McDonaldsRead store_items _ w0
           _ _ (or_intror (or_intror (or_intror (or_introl eq_refl))))
           eq_refl eq_refl).
Defined.

(** A menu of two items, the second without a name. *)
Lemma X4_witness :
  exists errs w',
    run McDonaldsCreate (RDict [("menu", RList two_items)]) w0
    = (Err errs, w') /\
    In (mkError "missing" [LKey "menu"; LIdx 1; LKey "name"] (RDict []))
       errs.
Proof.
  apply (X4_nameless_menu_item_is_reported_at_its_index U D McDonaldsCreate
           [("menu", RList two_items)] two_items 1 [] w0).
  - right. now left.
  - reflexivity.
  - reflexivity.
  - reflexivity.
Defined.

Lemma X5_witness :
  exists x w1,
    nth_error two_items 1 = Some x /\
    In (mkError "missing" [LKey "menu"; LIdx 1; LKey "name"] (RDict []))
       (errors_of (fst (validate U D ItemBase [LKey "menu"; LIdx 1] x w1))).
Proof.
  apply (X5_menu_errors_belong_to_their_item U D McDonaldsCreate
           [("menu", RList two_items)] two_items w0 _ 1 [LKey "name"]).
  - right. now left.
  - reflexivity.
  - left. reflexivity.
  - reflexivity.
Defined.

(** Two menu items without ids, in the world whose generator counts up. *)
Lemma X7_witness :
  exists vs first,
    attr (run McDonaldsCreate
            (RDict [("menu", RList [ RDict [("name", RStr "Big Mac")];
                                     RDict [("name", RStr "Fries")] ])]) w0)
      "menu" = Some (VList vs) /\
    drawn w0 <= first /\
    (forall i v, nth_error vs i = Some v ->
                 getattr v "id" = Some (VUuid (rng w0 (first + i)))) /\
    ((forall a b, rng w0 a = rng w0 b -> a = b) ->
     NoDup (map (fun v => getattr v "id") vs)).
Proof.
  refine (X7_generated_menu_ids_are_distinct U D McDonaldsCreate
            [("menu", RList [ RDict [("name", RStr "Big Mac")];
                              RDict [("name", RStr "Fries")] ])]
            [ RDict [("name", RStr "Big Mac")];
              RDict [("name", RStr "Fries")] ] w0 _ _
            (or_intror (or_introl eq_refl)) eq_refl _ eq_refl).
  repeat constructor; eexists; split; reflexivity.
Defined.

(** The Read instance of the example item, dumped and validated again. *)
Lemma X8_witness :
  exists inst,
    fst (run ItemRead big_mac w0) = Ok inst /\
    run ItemRead (model_dump inst) w0 = (Ok inst, w0).
Proof.
  eexists. split; [reflexivity|].
  apply (X8_dump_then_validate_is_the_identity U D ItemRead big_mac w0 _
           (snd (run ItemRead big_mac w0))).
  - cbn. tauto.
  - reflexivity.
Defined.

(** [McDonaldsBase()], dumped, is not a valid [McDonaldsBase]. *)
Lemma X9_witness :
  exists errs u',
    run McDonaldsBase
      (model_dump
         (VModel "McDonaldsBase" [("address", VList []); ("menu", VList [])]))
      w0 = (Err errs, u') /\
    In (mkError "model_type" [LKey "address"] (RList [])) errs.
Proof.
  apply (X9_store_without_address_is_rejected_once_dumped U D McDonaldsBase
           [] w0 _ w0 w0).
  - now left.
  - reflexivity.
  - reflexivity.
Defined.

(** [{name: "Big Mac", ingredients: null}] as an Update payload. *)
Lemma X10_witness :
  attr (run ItemUpdate
          (RDict [("name", RStr "Big Mac"); ("ingredients", RNone)]) w0)
    "ingredients" = Some VNone.
Proof.
  destruct (X10_update_fields_accept_null U D ItemUpdate "ingredients"
              [("name", RStr "Big Mac"); ("ingredients", RNone)] w0)
    as [_ H].
  - now left.
  - right. now left.
  - reflexivity.
  - exact (H _ _ eq_refl).
Defined.

(** [{name: "Big Mac"}] is an accepted Create payload. *)
Lemma X11_witness :
  is_ok (fst (run ItemCreate name_only w0)) = true.
Proof.
  apply (X11_accepted_item_payloads U D ItemCreate
           [("name", RStr "Big Mac")] w0).
  - right. now left.
  - split; [discriminate|]. split; [now exists "Big Mac" | discriminate].
Defined.

End MoreOnExamples.
